(** * BaseScraper: the session lifecycle of src/scrapers/base_scraper.py

    A shallow embedding of the abstract scraper class and of its [run]
    template method.  The browser engine (Playwright) and the site specific
    subclass are external: they are interfaces (type classes) acting on an
    abstract world [W], and every call the controller makes to them is
    recorded, with its outcome, in the list of events a computation emits.
    Python's [try]/[except Exception]/[finally] and the early [return] inside
    the [try] are combinators of a small state-and-control monad. *)

From Stdlib Require Import ZArith.
From stdpp Require Import base option list strings gmap.

Local Open Scope Z_scope.


(** ** Data *)

(** A raised Python exception: whether it is an instance of [Exception] (what
    [except Exception] catches; [asyncio.CancelledError], [KeyboardInterrupt]
    are not) and its [str(e)]. *)
Record exn := Exn { exn_is_Exception : bool; exn_str : string }.

(** What an awaited call gives back: a value, or a raised exception. *)
Inductive result (A : Type) :=
| Done (a : A)
| Throw (e : exn).
Arguments Done {A} a.
Arguments Throw {A} e.

(** Playwright's [Browser] and [Page] objects are opaque handles. *)
Definition Browser : Type := nat.
Definition Page : Type := nat.

(** [Dict[str, str]] *)
Abbreviation Credentials := (gmap string string).

(** The fields set by [__init__]. *)
Record Scraper := mkScraper {
  site_name : string;
  headless : bool;
  browser : option Browser;
  page : option Page;
  base_url : string
}.

(** [BaseScraper.__init__(site_name, headless=True)] *)
Definition init (site_name : string) (headless : bool) : Scraper :=
  {| site_name := site_name; headless := headless;
     browser := None; page := None; base_url := "" |}.

Definition set_browser_field (b : option Browser) (self : Scraper) : Scraper :=
  {| site_name := site_name self; headless := headless self;
     browser := b; page := page self; base_url := base_url self |}.

Definition set_page_field (p : option Page) (self : Scraper) : Scraper :=
  {| site_name := site_name self; headless := headless self;
     browser := browser self; page := p; base_url := base_url self |}.

Inductive level := INFO | ERROR.

(** The controller's own methods; entering one is recorded as a ghost event. *)
Inductive method := m_init_browser | m_close_browser | m_navigate_to.

(** What a run does, in order: the calls it awaits (with their outcome), the
    lines it logs, and the controller methods it enters. *)
Inductive event (Record : Type) :=
| ECall (m : method)
| ELog (lvl : level) (msg : string)
| EStart (r : result unit)
| ELaunch (headless : bool) (r : result Browser)
| ENewPage (b : Browser) (r : result Page)
| EPageClose (p : Page) (r : result unit)
| EBrowserClose (b : Browser) (r : result unit)
| EGoto (p : Page) (url : string) (wait_until : string) (timeout : Z) (r : result unit)
| EWait (p : Page) (ms : Z) (r : result unit)
| EAuthenticate (c : Credentials) (r : result bool)
| EExtract (url : string) (r : result (list Record)).
Arguments ECall {Record} m.
Arguments ELog {Record} lvl msg.
Arguments EStart {Record} r.
Arguments ELaunch {Record} headless r.
Arguments ENewPage {Record} b r.
Arguments EPageClose {Record} p r.
Arguments EBrowserClose {Record} b r.
Arguments EGoto {Record} p url wait_until timeout r.
Arguments EWait {Record} p ms r.
Arguments EAuthenticate {Record} c r.
Arguments EExtract {Record} url r.

(** ** The two external interfaces *)

(** The part of [playwright.async_api] the class uses.  Every operation may
    change the world and may raise. *)
Class Playwright (W : Type) := {
  (* async_playwright().start() *)
  playwright_start : W → W * result unit;
  (* playwright.chromium.launch(headless=...) *)
  chromium_launch : bool → W → W * result Browser;
  (* browser.new_page() *)
  browser_new_page : Browser → W → W * result Page;
  (* page.close() *)
  page_close : Page → W → W * result unit;
  (* browser.close() *)
  browser_close : Browser → W → W * result unit;
  (* page.goto(url, wait_until=..., timeout=...) *)
  page_goto : Page → string → string → Z → W → W * result unit;
  (* page.wait_for_timeout(ms) *)
  page_wait_for_timeout : Page → Z → W → W * result unit
}.

(** The abstract methods a site specific subclass implements.  They see the
    controller's fields ([self.page] above all) and act on the world; they do
    not reassign [self.browser] or [self.page] and do not call the lifecycle
    methods themselves. *)
Class Strategy (W Record : Type) := {
  get_base_url : Scraper → string;
  authenticate : Scraper → Credentials → W → W * result bool;
  extract_data : Scraper → string → W → W * result (list Record)
}.

(** ** The monad of method bodies *)

(** How a block of statements ends: it falls through with a value, executes
    [return v], or raises. *)
Inductive ctl (R A : Type) :=
| Normal (a : A)
| Return (v : R)
| Raise (e : exn).
Arguments Normal {R A} a.
Arguments Return {R A} v.
Arguments Raise {R A} e.

(** * A scripted engine and a small site

    A concrete world for running the controller: handles are numbered as they
    are created, and flags of the world say which engine operation fails. *)
Module Sim.

Record world := World {
  next_handle : nat;
  launch_fails : bool;
  new_page_fails : bool;
  page_close_fails : bool;
  browser_close_fails : bool;
  goto_times_out : bool
}.

Definition allocate (w : world) : world * result nat :=
  (World (S (next_handle w)) (launch_fails w) (new_page_fails w) (page_close_fails w)
     (browser_close_fails w) (goto_times_out w),
   Done (next_handle w)).

Definition fail_if {A} (flag : bool) (msg : string) (ok : world * result A) (w : world)
  : world * result A :=
  if flag then (w, Throw (Exn true msg)) else ok.

#[global] Instance engine : Playwright world := {|
  playwright_start w := (w, Done tt);
  chromium_launch _ w := fail_if (launch_fails w) "Executable doesn't exist" (allocate w) w;
  browser_new_page _ w := fail_if (new_page_fails w) "Browser has been closed" (allocate w) w;
  page_close _ w := fail_if (page_close_fails w) "Connection closed" (w, Done tt) w;
  browser_close _ w := fail_if (browser_close_fails w) "Connection closed" (w, Done tt) w;
  page_goto _ _ _ _ w := fail_if (goto_times_out w) "Timeout 30000ms exceeded." (w, Done tt) w;
  page_wait_for_timeout _ _ w := (w, Done tt)
|}.

(** A site with two pages; its records are [{"id": n}]. *)
#[global] Instance site : Strategy world (gmap string Z) := {|
  get_base_url _ := "https://site";
  authenticate _ c w := (w, Done (bool_decide (c !! "pass" = Some "secret")));
  extract_data _ url w :=
    if decide (url = "https://site/a") then (w, Done [{["id" := 1]}])
    else if decide (url = "https://site/b") then (w, Done [{["id" := 2]}; {["id" := 3]}])
    else (w, Throw (Exn true "no such page"))
|}.

(** all engine operations succeed *)
Definition healthy : world := World 0 false false false false false.
Definition no_launch : world := World 0 true false false false false.
Definition no_page : world := World 0 false true false false false.
Definition stuck_page : world := World 0 false false true false false.
Definition stuck_browser : world := World 0 false false false true false.
Definition slow_network : world := World 0 false false false false true.

Definition scraper : Scraper := init "site" true.
(** the controller once browser 0 and page 1 are acquired *)
Definition ready_scraper : Scraper :=
  set_page_field (Some 1%nat) (set_browser_field (Some 0%nat) scraper).

Definition good_login : Credentials := {["user" := "x"; "pass" := "secret"]}.
Definition bad_login : Credentials := {["user" := "x"; "pass" := "y"]}.

End Sim.

(** A site whose extraction is cancelled: [extract_data] raises
    [asyncio.CancelledError], which is not an [Exception]. *)
Module Cancelled.

Definition site : Strategy Sim.world (gmap string Z) := {|
  get_base_url _ := "https://site";
  authenticate _ c w := (w, Done true);
  extract_data _ url w := (w, Throw (Exn false "CancelledError"))
|}.

End Cancelled.

(** A site whose login page is gone ([authenticate] raises), and an engine
    on which the page dies during the settle wait. *)
Module Faulty.

Definition site : Strategy Sim.world (gmap string Z) := {|
  get_base_url _ := "https://site";
  authenticate _ c w := (w, Throw (Exn true "login form not found"));
  extract_data _ url w := (w, Done [])
|}.

Definition engine : Playwright Sim.world := {|
  playwright_start w := (w, Done tt);
  chromium_launch _ w := Sim.allocate w;
  browser_new_page _ w := Sim.allocate w;
  page_close _ w := (w, Done tt);
  browser_close _ w := (w, Done tt);
  page_goto _ _ _ _ w := (w, Done tt);
  page_wait_for_timeout _ _ w := (w, Throw (Exn true "Target page has been closed"))
|}.

End Faulty.

Section Controller.
Context {W Record : Type} `{!Playwright W} `{!Strategy W Record}.
Implicit Types (self : Scraper) (w : W) (evs : list (event Record)).

(** ** Reading a trace *)

Definition is_close_call (ev : event Record) : bool :=
  match ev with ECall m_close_browser => true | _ => false end.
Definition is_authenticate (ev : event Record) : bool :=
  match ev with EAuthenticate _ _ => true | _ => false end.
Definition is_extract (ev : event Record) : bool :=
  match ev with EExtract _ _ => true | _ => false end.
Definition is_page_close (ev : event Record) : bool :=
  match ev with EPageClose _ _ => true | _ => false end.
Definition is_browser_close (ev : event Record) : bool :=
  match ev with EBrowserClose _ _ => true | _ => false end.

(** a close of the page or of the browser raised *)
Definition close_raised (ev : event Record) : bool :=
  match ev with EPageClose _ (Throw _) | EBrowserClose _ (Throw _) => true | _ => false end.
(** [authenticate] returned [False] *)
Definition auth_returned_false (ev : event Record) : bool :=
  match ev with EAuthenticate _ (Done false) => true | _ => false end.

(** the events [init_browser] can emit *)
Definition init_event (ev : event Record) : bool :=
  match ev with
  | ECall m_init_browser | EStart _ | ELaunch _ _ | ENewPage _ _ | ELog INFO _ => true
  | _ => false
  end.
(** the events [close_browser] can emit after it is entered *)
Definition close_event (ev : event Record) : bool :=
  match ev with
  | EPageClose _ _ | EBrowserClose _ _ | ELog INFO _ => true
  | _ => false
  end.
(** the events of the [try] block of [run] and of its [except] handler *)
Definition try_event (ev : event Record) : bool :=
  match ev with
  | ECall m_init_browser | EStart _ | ELaunch _ _ | ENewPage _ _ | ELog _ _
  | EAuthenticate _ _ | EExtract _ _ => true
  | _ => false
  end.

Definition count (f : event Record → bool) evs : nat := length (List.filter f evs).

(** the browser processes started, the pages opened *)
Definition launched evs : list Browser :=
  omap (λ ev, match ev with ELaunch _ (Done b) => Some b | _ => None end) evs.
Definition opened_pages evs : list Page :=
  omap (λ ev, match ev with ENewPage _ (Done p) => Some p | _ => None end) evs.

(** a close of this browser (of this page) returned normally *)
Definition browser_closed (b : Browser) evs : bool :=
  existsb (λ ev, match ev with EBrowserClose b' (Done _) => Nat.eqb b b' | _ => false end) evs.
Definition page_closed (p : Page) evs : bool :=
  existsb (λ ev, match ev with EPageClose p' (Done _) => Nat.eqb p p' | _ => false end) evs.

(** the events of the strategy, and log lines *)
Definition strategy_event (ev : event Record) : bool :=
  match ev with ELog _ _ | EAuthenticate _ _ | EExtract _ _ => true | _ => false end.

(** ** Method bodies

    A body runs on the controller's fields and the world; it leaves new
    fields and a new world, the events it emitted, and how it ended. *)

Record out (A : Type) := Out {
  o_self : Scraper;
  o_world : W;
  o_events : list (event Record);
  o_ctl : ctl (list Record) A
}.
Global Arguments Out {A} _ _ _ _.
Global Arguments o_self {A} _.
Global Arguments o_world {A} _.
Global Arguments o_events {A} _.
Global Arguments o_ctl {A} _.

Definition M (A : Type) : Type := Scraper → W → out A.

Definition ret {A} (a : A) : M A := λ self w, Out self w [] (Normal a).

(** the events [evs] happened before the computation that gave [o] *)
Definition after {A} (evs : list (event Record)) (o : out A) : out A :=
  match o with Out s w evs' c => Out s w (evs ++ evs') c end.

Definition bind {A B} (m : M A) (k : A → M B) : M B := λ self w,
  match m self w with
  | Out s1 w1 ev1 (Normal a) => after ev1 (k a s1 w1)
  | Out s1 w1 ev1 (Return v) => Out s1 w1 ev1 (Return v)
  | Out s1 w1 ev1 (Raise e) => Out s1 w1 ev1 (Raise e)
  end.

Global Instance M_ret : MRet M := @ret.
Global Instance M_bind : MBind M := λ A B k m, bind m k.

(** [return v] *)
Definition return_ {A} (v : list Record) : M A := λ self w, Out self w [] (Return v).
(** [raise e] *)
Definition raise {A} (e : exn) : M A := λ self w, Out self w [] (Raise e).

Definition get_self : M Scraper := λ self w, Out self w [] (Normal self).
Definition set_browser (b : Browser) : M unit :=
  λ self w, Out (set_browser_field (Some b) self) w [] (Normal tt).
Definition set_page (p : Page) : M unit :=
  λ self w, Out (set_page_field (Some p) self) w [] (Normal tt).

Definition emit (ev : event Record) : M unit := λ self w, Out self w [ev] (Normal tt).

Definition lift {A} (r : result A) : ctl (list Record) A :=
  match r with Done a => Normal a | Throw e => Raise e end.

(** [await op(...)]: the external call runs on the world, and the call and
    its outcome are recorded. *)
Definition await {A} (op : W → W * result A) (ev : result A → event Record) : M A :=
  λ self w, let '(w', r) := op w in Out self w' [ev r] (lift r).

Definition logger_info (msg : string) : M unit := emit (ELog INFO msg).
Definition logger_error (msg : string) : M unit := emit (ELog ERROR msg).

(** [try: body  except Exception as e: handler e] *)
Definition try_except {A} (body : M A) (handler : exn → M A) : M A := λ self w,
  match body self w with
  | Out s1 w1 ev1 (Raise e) =>
      if exn_is_Exception e then after ev1 (handler e s1 w1)
      else Out s1 w1 ev1 (Raise e)
  | o => o
  end.

(** [try: body  finally: fin].  The [finally] block runs on every exit of
    the body; when it completes normally the body's outcome stands, and
    when it raises, its exception replaces that outcome. *)
Definition try_finally {A} (body : M A) (fin : M unit) : M A := λ self w,
  match body self w with
  | Out s1 w1 ev1 c =>
      match fin s1 w1 with
      | Out s2 w2 ev2 (Normal _) => Out s2 w2 (ev1 ++ ev2) c
      | Out s2 w2 ev2 (Return v) => Out s2 w2 (ev1 ++ ev2) (Return v)
      | Out s2 w2 ev2 (Raise e) => Out s2 w2 (ev1 ++ ev2) (Raise e)
      end
  end.

(** ** The methods of [BaseScraper] *)

Definition init_browser : M unit :=
  emit (ECall m_init_browser) ;;
  await playwright_start EStart ;;
  self ← get_self ;
  b ← await (chromium_launch (headless self)) (ELaunch (headless self)) ;
  set_browser b ;;
  self ← get_self ;
  p ← match browser self with
      | Some b => await (browser_new_page b) (ENewPage b)
      | None => raise (Exn true "'NoneType' object has no attribute 'new_page'")
      end ;
  set_page p ;;
  self ← get_self ;
  logger_info ("[" +:+ site_name self +:+ "] completed browser initialization").

Definition close_browser : M unit :=
  emit (ECall m_close_browser) ;;
  self ← get_self ;
  match page self with
  | Some p => await (page_close p) (EPageClose p)
  | None => mret tt
  end ;;
  self ← get_self ;
  match browser self with
  | Some b => await (browser_close b) (EBrowserClose b)
  | None => mret tt
  end ;;
  self ← get_self ;
  logger_info ("[" +:+ site_name self +:+ "] the browser has been closed").

Definition navigate_to (url : string) (wait_time : Z) : M unit :=
  emit (ECall m_navigate_to) ;;
  try_except
    (self ← get_self ;
     match page self with
     | Some p => await (page_goto p url "networkidle" 30000) (EGoto p url "networkidle" 30000)
     | None => raise (Exn true "'NoneType' object has no attribute 'goto'")
     end ;;
     self ← get_self ;
     match page self with
     | Some p => await (page_wait_for_timeout p wait_time) (EWait p wait_time)
     | None => raise (Exn true "'NoneType' object has no attribute 'wait_for_timeout'")
     end ;;
     self ← get_self ;
     logger_info ("[" +:+ site_name self +:+ "] successfully navigated to: " +:+ url))
    (λ e,
      self ← get_self ;
      logger_error ("[" +:+ site_name self +:+ "] failed to navigate to: " +:+ exn_str e) ;;
      raise e).

(** the default [wait_time: int = 3000] *)
Definition navigate_to_default (url : string) : M unit := navigate_to url 3000.

(** [for url in urls: data = await self.extract_data(url); all_data.extend(data)] *)
Fixpoint for_url (urls : list string) (all_data : list Record) : M (list Record) :=
  match urls with
  | [] => mret all_data
  | url :: urls' =>
      self ← get_self ;
      data ← await (extract_data self url) (EExtract url) ;
      for_url urls' (all_data ++ data)
  end.

(** The block under [# authenticate]. *)
Definition authenticate_block (credentials : option Credentials) : M unit :=
  match credentials with
  | Some c =>
      if bool_decide (c ≠ ∅) then
        self ← get_self ;
        auth_success ← await (authenticate self c) (EAuthenticate c) ;
        if negb auth_success then
          logger_error ("[" +:+ site_name self +:+ "] authentication failed") ;;
          return_ []
        else mret tt
      else mret tt
  | None => mret tt
  end.

(** The block under [# extract data], up to the [return]: its value is
    [all_data]. *)
Definition extract_block (urls : option (list string)) : M (list Record) :=
  let all_data := [] in
  match urls with
  | Some ((_ :: _) as urls) => for_url urls all_data
  | _ => mret all_data
  end.

(** The body of the [try] in [run]. *)
Definition run_try (credentials : option Credentials) (urls : option (list string))
  : M Empty_set :=
  init_browser ;;
  authenticate_block credentials ;;
  all_data ← extract_block urls ;
  return_ all_data.

(** The [except Exception as e] handler of [run]: log, then re-raise. *)
Definition run_handler (e : exn) : M Empty_set :=
  self ← get_self ;
  logger_error ("[" +:+ site_name self +:+ "] execution failed: " +:+ exn_str e) ;;
  raise e.

(** The [try]/[except] part of [run]: what the run yields before cleanup. *)
Definition run_try_except (credentials : option Credentials) (urls : option (list string))
  : M Empty_set :=
  try_except (run_try credentials urls) run_handler.

(** The whole [try]/[except]/[finally] statement of [run]. *)
Definition run_body (credentials : option Credentials) (urls : option (list string))
  : M Empty_set :=
  try_finally (run_try_except credentials urls) close_browser.

(** What the caller of an [async def] gets: the returned value or the
    exception.  A body of type [M Empty_set] cannot fall off its end. *)
Definition function_result (c : ctl (list Record) Empty_set) : result (list Record) :=
  match c with
  | Normal a => match a with end
  | Return v => Done v
  | Raise e => Throw e
  end.

(** [BaseScraper.run(credentials=None, urls=None)]: final fields of the
    controller, final world, events, and what the caller receives. *)
Definition run (credentials : option Credentials) (urls : option (list string))
    (self : Scraper) (w : W)
  : Scraper * W * list (event Record) * result (list Record) :=
  let o := run_body credentials urls self w in
  (o_self o, o_world o, o_events o, function_result (o_ctl o)).

(** ** Vocabulary of the statements *)

(** the line [close_browser] logs *)
Definition closed_message self : string :=
  "[" +:+ site_name self +:+ "] the browser has been closed".

(** From world [w], [extract_data] returns normally for each URL in turn,
    giving [datas] and leaving the world [w']. *)
Inductive extracts self : list string → W → list (list Record) → W → Prop :=
| extracts_nil w : extracts self [] w [] w
| extracts_cons url urls w w1 w2 data datas :
    extract_data self url w = (w1, Done data) →
    extracts self urls w1 datas w2 →
    extracts self (url :: urls) w (data :: datas) w2.

Definition extract_events (urls : list string) (datas : list (list Record))
  : list (event Record) :=
  zip_with (λ url data, EExtract url (Done data)) urls datas.

(** Authentication is not requested (credentials omitted, or an empty
    mapping), or it is requested and [authenticate] returns [True]. *)
Inductive authenticated self : option Credentials → W → list (event Record) → W → Prop :=
| auth_omitted w : authenticated self None w [] w
| auth_empty w : authenticated self (Some ∅) w [] w
| auth_succeeds c w w' :
    c ≠ ∅ → authenticate self c w = (w', Done true) →
    authenticated self (Some c) w [EAuthenticate c (Done true)] w'.

(** [urls=None] and [urls=[]] both skip the loop. *)
Definition requested_urls (urls : option (list string)) : list string := default [] urls.

Definition auth_failed_message self : string :=
  "[" +:+ site_name self +:+ "] authentication failed".
Definition execution_failed_message self (e : exn) : string :=
  "[" +:+ site_name self +:+ "] execution failed: " +:+ exn_str e.

(** Every execution of the [try] block is one of five. *)
Inductive try_behaviour credentials urls self w : out Empty_set → Prop :=
| try_init_raises s1 w1 ev1 e :
    init_browser self w = Out s1 w1 ev1 (Raise e) →
    try_behaviour credentials urls self w (Out s1 w1 ev1 (Raise e))
| try_auth_raises c s1 w1 ev1 w2 e :
    credentials = Some c → c ≠ ∅ →
    init_browser self w = Out s1 w1 ev1 (Normal tt) →
    authenticate s1 c w1 = (w2, Throw e) →
    try_behaviour credentials urls self w
      (Out s1 w2 (ev1 ++ [EAuthenticate c (Throw e)]) (Raise e))
| try_auth_false c s1 w1 ev1 w2 :
    credentials = Some c → c ≠ ∅ →
    init_browser self w = Out s1 w1 ev1 (Normal tt) →
    authenticate s1 c w1 = (w2, Done false) →
    try_behaviour credentials urls self w
      (Out s1 w2 (ev1 ++ [EAuthenticate c (Done false); ELog ERROR (auth_failed_message s1)])
         (Return []))
| try_extracted s1 w1 ev1 ev2 w2 datas w3 :
    init_browser self w = Out s1 w1 ev1 (Normal tt) →
    authenticated s1 credentials w1 ev2 w2 →
    extracts s1 (requested_urls urls) w2 datas w3 →
    try_behaviour credentials urls self w
      (Out s1 w3 (ev1 ++ ev2 ++ extract_events (requested_urls urls) datas)
         (Return (concat datas)))
| try_extract_raises pre url post s1 w1 ev1 ev2 w2 datas w3 w4 e :
    urls = Some (pre ++ url :: post) →
    init_browser self w = Out s1 w1 ev1 (Normal tt) →
    authenticated s1 credentials w1 ev2 w2 →
    extracts s1 pre w2 datas w3 →
    extract_data s1 url w3 = (w4, Throw e) →
    try_behaviour credentials urls self w
      (Out s1 w4 (ev1 ++ ev2 ++ extract_events pre datas ++ [EExtract url (Throw e)])
         (Raise e)).

(** The parts of what [run] gives. *)
Definition final_self (x : Scraper * W * list (event Record) * result (list Record)) : Scraper :=
  x.1.1.1.
Definition trace (x : Scraper * W * list (event Record) * result (list Record))
  : list (event Record) := x.1.2.
Definition outcome (x : Scraper * W * list (event Record) * result (list Record))
  : result (list Record) := x.2.

(** what the [except] handler adds to the trace *)
Definition handler_events self (e : exn) : list (event Record) :=
  if exn_is_Exception e then [ELog ERROR (execution_failed_message self e)] else [].

(** a call of the strategy did not succeed: [authenticate] returned [False]
    or raised, or [extract_data] raised *)
Definition strategy_failed (ev : event Record) : bool :=
  match ev with
  | EAuthenticate _ (Done false) | EAuthenticate _ (Throw _) | EExtract _ (Throw _) => true
  | _ => false
  end.

(** the record lists [extract_data] returned, concatenated in call order *)
Definition extracted_records evs : list Record :=
  concat (omap (λ ev, match ev with EExtract _ (Done data) => Some data | _ => None end) evs).

(** What C2 says of a run on [urls]: if no call of the strategy fails,
    [extract_data] is called on the URLs in order and the caller gets the
    concatenation of what it returned. *)
Definition returns_concatenation credentials (urls : list string) self w : Prop :=
  count strategy_failed (trace (run credentials (Some urls) self w)) = 0%nat →
  outcome (run credentials (Some urls) self w) =
    Done (extracted_records (trace (run credentials (Some urls) self w))).

(** What C3 says of a run: if [authenticate] returned [False], the caller
    gets the empty list and [extract_data] was never called. *)
Definition auth_failure_returns_empty credentials urls self w : Prop :=
  count auth_returned_false (trace (run credentials urls self w)) ≠ 0%nat →
  outcome (run credentials urls self w) = Done [] ∧
  count is_extract (trace (run credentials urls self w)) = 0%nat.

(** What C4 says of a run on [pre ++ url :: post]: if [extract_data]
    returns on [pre] and raises [e] on [url], the caller gets [e]. *)
Definition propagates_extraction_error credentials pre url post self w : Prop :=
  ∀ s1 w1 ev1 ev2 w2 datas w3 w4 e,
    init_browser self w = Out s1 w1 ev1 (Normal tt) →
    authenticated s1 credentials w1 ev2 w2 →
    extracts s1 pre w2 datas w3 →
    extract_data s1 url w3 = (w4, Throw e) →
    outcome (run credentials (Some (pre ++ url :: post)) self w) = Throw e.

(** What C10 says of a run without credentials and without URLs: it is the
    run on the empty list, returns the empty list, never calls
    [extract_data], and creates one browser and closes it. *)
Definition bare_run_returns_empty self w : Prop :=
  run None None self w = run None (Some []) self w ∧
  outcome (run None None self w) = Done [] ∧
  count is_extract (trace (run None None self w)) = 0%nat ∧
  length (launched (trace (run None None self w))) = 1%nat ∧
  forallb (λ b, browser_closed b (trace (run None None self w)))
    (launched (trace (run None None self w))) = true.

(** What C5 says of a run: cleanup does not raise, and the caller gets the
    outcome of the [try]/[except] part. *)
Definition cleanup_is_silent credentials urls self w : Prop :=
  (∀ e, o_ctl (close_browser (o_self (run_try_except credentials urls self w))
                 (o_world (run_try_except credentials urls self w))) ≠ Raise e) ∧
  outcome (run credentials urls self w) =
    function_result (o_ctl (run_try_except credentials urls self w)).

(** Python's truth value of the [credentials] argument. *)
Definition truthy (credentials : option Credentials) : bool :=
  match credentials with
  | Some c => bool_decide (c ≠ ∅)
  | None => false
  end.

(** What C6 says of a run: one call of [authenticate] when a mapping was
    passed, none when it was omitted. *)
Definition authenticate_iff_supplied credentials urls self w : Prop :=
  count is_authenticate (trace (run credentials urls self w)) =
    match credentials with Some _ => 1%nat | None => 0%nat end.

(** What C8 says of a run: one browser process and one page are created,
    what was created is closed, and the controller is left holding no handle
    that is still open. *)
Definition one_browser_per_run credentials urls self w : Prop :=
  let r := run credentials urls self w in
  length (launched (trace r)) = 1%nat ∧
  length (opened_pages (trace r)) = 1%nat ∧
  forallb (λ b, browser_closed b (trace r)) (launched (trace r)) = true ∧
  forallb (λ p, page_closed p (trace r)) (opened_pages (trace r)) = true ∧
  forallb (λ b, browser_closed b (trace r)) (option_list (browser (final_self r))) = true ∧
  forallb (λ p, page_closed p (trace r)) (option_list (page (final_self r))) = true.

(** the URLs [extract_data] was called on, in call order *)
Definition extracted_urls evs : list string :=
  omap (λ ev, match ev with EExtract url _ => Some url | _ => None end) evs.

(** events that create nothing and call no strategy method *)
Definition inert evs : Prop :=
  launched evs = [] ∧ opened_pages evs = [] ∧ extracted_urls evs = [] ∧
  count is_authenticate evs = 0%nat.

(** * Proofs *)

Lemma count_app f evs1 evs2 : count f (evs1 ++ evs2) = (count f evs1 + count f evs2)%nat.
Proof. unfold count. rewrite List.filter_app, length_app. reflexivity. Qed.

Lemma count_cons f (ev : event Record) evs :
  count f (ev :: evs) = ((if f ev then 1 else 0) + count f evs)%nat.
Proof. unfold count. simpl. destruct (f ev); reflexivity. Qed.

(** no event of [evs] satisfies [f] as soon as all of them satisfy a [g]
    that excludes [f] *)
Lemma count_excluded f g evs :
  (∀ ev, g ev = true → f ev = false) → Forall (λ ev, g ev = true) evs → count f evs = 0%nat.
Proof.
  intros Hfg Hall. induction Hall as [|ev evs Hev _ IH]; [reflexivity|].
  rewrite count_cons, (Hfg _ Hev), IH. reflexivity.
Qed.

Lemma omap_excluded {A} (f : event Record → option A) (g : event Record → bool) evs :
  (∀ ev, g ev = true → f ev = None) → Forall (λ ev, g ev = true) evs → omap f evs = [].
Proof.
  intros Hfg Hall. induction Hall as [|ev evs Hev _ IH]; [reflexivity|].
  simpl. rewrite (Hfg _ Hev). exact IH.
Qed.

(** ** Reasoning about method bodies *)

Lemma bind_Normal {A B} (m : M A) (k : A → M B) self w s1 w1 e1 a :
  m self w = Out s1 w1 e1 (Normal a) →
  (m ≫= k) self w = after e1 (k a s1 w1).
Proof. intros Hm. unfold mbind, M_bind, bind. rewrite Hm. reflexivity. Qed.

Lemma bind_Raise {A B} (m : M A) (k : A → M B) self w s1 w1 e1 e :
  m self w = Out s1 w1 e1 (Raise e) →
  (m ≫= k) self w = Out s1 w1 e1 (Raise e).
Proof. intros Hm. unfold mbind, M_bind, bind. rewrite Hm. reflexivity. Qed.

Lemma bind_Return {A B} (m : M A) (k : A → M B) self w s1 w1 e1 v :
  m self w = Out s1 w1 e1 (Return v) →
  (m ≫= k) self w = Out s1 w1 e1 (Return v).
Proof. intros Hm. unfold mbind, M_bind, bind. rewrite Hm. reflexivity. Qed.

Lemma out_eta {A} (o : out A) : o = Out (o_self o) (o_world o) (o_events o) (o_ctl o).
Proof. destruct o; reflexivity. Qed.

Ltac unfold_M :=
  unfold mbind, mret, M_bind, M_ret, bind, ret, return_, raise, get_self, set_browser,
    set_page, logger_info, logger_error, emit, await, lift, after in *.

Ltac case_call :=
  match goal with
  | |- context [let '(_, _) := ?op in _] =>
      let E := fresh "Hcall" in destruct op as [? [?|?]] eqn:E; simpl
  | |- context [match page ?s with _ => _ end] =>
      let E := fresh "Hpage" in destruct (page s) eqn:E; simpl
  | |- context [match browser ?s with _ => _ end] =>
      let E := fresh "Hbrowser" in destruct (browser s) eqn:E; simpl
  end.

(** ** What each method can do *)

(** *** [init_browser] *)

Lemma init_browser_events self w :
  Forall (λ ev, init_event ev = true) (o_events (init_browser self w)).
Proof.
  unfold init_browser. unfold_M. simpl.
  repeat case_call; repeat constructor.
Qed.

(** Acquisition either completes, with both fields set to the fresh handles,
    or raises. *)
Lemma init_browser_Normal self w s1 w1 evs :
  init_browser self w = Out s1 w1 evs (Normal tt) →
  ∃ b p, s1 = set_page_field (Some p) (set_browser_field (Some b) self) ∧
    evs = [ECall m_init_browser; EStart (Done tt); ELaunch (headless self) (Done b);
           ENewPage b (Done p);
           ELog INFO ("[" +:+ site_name self +:+ "] completed browser initialization")].
Proof.
  unfold init_browser. unfold_M. simpl.
  repeat case_call; intros [= <- <- <-];
    repeat match goal with u : unit |- _ => destruct u end; eauto.
Qed.

Lemma init_browser_not_Return self w v : o_ctl (init_browser self w) ≠ Return v.
Proof.
  unfold init_browser. unfold_M. simpl. repeat case_call; discriminate.
Qed.

(** *** [close_browser] *)

Lemma close_browser_self self w : o_self (close_browser self w) = self.
Proof.
  unfold close_browser. unfold_M. simpl.
  repeat case_call; reflexivity.
Qed.

Lemma close_browser_events self w :
  ∃ evs, o_events (close_browser self w) = ECall m_close_browser :: evs ∧
         Forall (λ ev, close_event ev = true) evs.
Proof.
  unfold close_browser. unfold_M. simpl.
  repeat case_call; eexists; (split; [reflexivity|]); repeat constructor.
Qed.

Lemma close_browser_not_Return self w v : o_ctl (close_browser self w) ≠ Return v.
Proof.
  unfold close_browser. unfold_M. simpl.
  repeat case_call; discriminate.
Qed.

(** Neither handle is held: nothing is closed. *)
Lemma close_browser_nothing self w :
  page self = None → browser self = None →
  close_browser self w =
    Out self w [ECall m_close_browser; ELog INFO (closed_message self)] (Normal tt).
Proof.
  intros Hp Hb. unfold close_browser. unfold_M. simpl. rewrite Hp, Hb. reflexivity.
Qed.

(** Only the browser is held: the page close is skipped. *)
Lemma close_browser_only_browser self w b w' r :
  page self = None → browser self = Some b → browser_close b w = (w', r) →
  close_browser self w =
    Out self w'
      (ECall m_close_browser :: EBrowserClose b r ::
         match r with Done _ => [ELog INFO (closed_message self)] | Throw _ => [] end)
      (lift r).
Proof.
  intros Hp Hb Hc. unfold close_browser. unfold_M. simpl. rewrite Hp, Hb. simpl.
  rewrite Hc. destruct r as [[]|e]; reflexivity.
Qed.

(** Only the page is held: the browser close is skipped. *)
Lemma close_browser_only_page self w p w' r :
  page self = Some p → browser self = None → page_close p w = (w', r) →
  close_browser self w =
    Out self w'
      (ECall m_close_browser :: EPageClose p r ::
         match r with Done _ => [ELog INFO (closed_message self)] | Throw _ => [] end)
      (lift r).
Proof.
  intros Hp Hb Hc. unfold close_browser. unfold_M. simpl. rewrite Hp. simpl.
  rewrite Hc. destruct r as [[]|e]; simpl; [rewrite Hb|]; reflexivity.
Qed.

(** The page close raises: the exception leaves [close_browser] at once, and
    the browser close is never reached. *)
Lemma close_browser_page_raises self w p w' e :
  page self = Some p → page_close p w = (w', Throw e) →
  close_browser self w =
    Out self w' [ECall m_close_browser; EPageClose p (Throw e)] (Raise e).
Proof.
  intros Hp Hc. unfold close_browser. unfold_M. simpl. rewrite Hp. simpl.
  rewrite Hc. reflexivity.
Qed.

(** The page closes, then the browser close decides the outcome. *)
Lemma close_browser_both self w p b w1 w2 r :
  page self = Some p → browser self = Some b →
  page_close p w = (w1, Done tt) → browser_close b w1 = (w2, r) →
  close_browser self w =
    Out self w2
      (ECall m_close_browser :: EPageClose p (Done tt) :: EBrowserClose b r ::
         match r with Done _ => [ELog INFO (closed_message self)] | Throw _ => [] end)
      (lift r).
Proof.
  intros Hp Hb Hc1 Hc2. unfold close_browser. unfold_M. simpl. rewrite Hp. simpl.
  rewrite Hc1. simpl. rewrite Hb. simpl. rewrite Hc2.
  destruct r as [[]|e]; reflexivity.
Qed.

(** With a page held, the first thing [close_browser] does is close it. *)
Lemma close_browser_with_page self w p :
  page self = Some p →
  ∃ r evs, o_events (close_browser self w) = ECall m_close_browser :: EPageClose p r :: evs ∧
           Forall (λ ev, close_event ev = true) evs.
Proof.
  intros Hp. unfold close_browser. unfold_M. simpl. rewrite Hp. simpl.
  repeat case_call; do 2 eexists; (split; [reflexivity|]); repeat constructor.
Qed.

(** [close_browser] returns normally exactly when no close it performs
    raises. *)
Lemma close_browser_Normal_iff self w :
  o_ctl (close_browser self w) = Normal tt ↔
  count close_raised (o_events (close_browser self w)) = 0%nat.
Proof.
  unfold close_browser. unfold_M. simpl.
  repeat case_call; repeat match goal with u : unit |- _ => destruct u end;
    split; intros Heq; try reflexivity; try discriminate.
Qed.

(** With both handles held and no close raising, [close_browser] closes the
    page, then the browser. *)
Lemma close_browser_closes_both self w p b :
  page self = Some p → browser self = Some b →
  count close_raised (o_events (close_browser self w)) = 0%nat →
  ∃ w', close_browser self w =
          Out self w'
            [ECall m_close_browser; EPageClose p (Done tt); EBrowserClose b (Done tt);
             ELog INFO (closed_message self)]
            (Normal tt).
Proof.
  intros Hp Hb.
  destruct (page_close p w) as [w1 [[]|e]] eqn:Hc1.
  - destruct (browser_close b w1) as [w2 [[]|e]] eqn:Hc2;
      rewrite (close_browser_both _ _ _ _ _ _ _ Hp Hb Hc1 Hc2); simpl; [eauto|discriminate].
  - rewrite (close_browser_page_raises _ _ _ _ _ Hp Hc1). discriminate.
Qed.

(** *** The extraction loop *)

Lemma extracts_length self urls w datas w' :
  extracts self urls w datas w' → length datas = length urls.
Proof. induction 1; simpl; congruence. Qed.

Lemma for_url_extracts self urls w datas w' :
  extracts self urls w datas w' →
  ∀ all_data,
    for_url urls all_data self w =
      Out self w' (extract_events urls datas) (Normal (all_data ++ concat datas)).
Proof.
  induction 1 as [w|url urls w w1 w2 data datas Hx _ IH]; intros all_data; simpl.
  - unfold_M. rewrite app_nil_r. reflexivity.
  - unfold_M. simpl. rewrite Hx. simpl. rewrite IH. simpl.
    rewrite <- app_assoc. reflexivity.
Qed.

Lemma for_url_raises self pre url post w datas w1 w2 e :
  extracts self pre w datas w1 →
  extract_data self url w1 = (w2, Throw e) →
  ∀ all_data,
    for_url (pre ++ url :: post) all_data self w =
      Out self w2 (extract_events pre datas ++ [EExtract url (Throw e)]) (Raise e).
Proof.
  intros Hpre Hx. induction Hpre as [w|u us w w' w1 d ds Hu _ IH]; intros all_data; simpl.
  - unfold_M. simpl. rewrite Hx. reflexivity.
  - unfold_M. simpl. rewrite Hu. simpl. rewrite (IH Hx). reflexivity.
Qed.

(** The loop either gets through all URLs or stops at the first one on which
    [extract_data] raises. *)
Lemma extracts_or_raises self urls w :
  (∃ datas w', extracts self urls w datas w') ∨
  (∃ pre url post datas w1 w2 e,
      urls = pre ++ url :: post ∧ extracts self pre w datas w1 ∧
      extract_data self url w1 = (w2, Throw e)).
Proof.
  revert w. induction urls as [|url urls IH]; intros w.
  - left. exists [], w. constructor.
  - destruct (extract_data self url w) as [w1 [data|e]] eqn:Hx.
    + destruct (IH w1) as [(datas & w' & Hok)|(pre & u & post & datas & w2 & w3 & e & -> & Hpre & Hu)].
      * left. exists (data :: datas), w'. econstructor; eauto.
      * right. exists (url :: pre), u, post, (data :: datas), w2, w3, e.
        split; [reflexivity|]. split; [econstructor; eauto|assumption].
    + right. exists [], url, urls, [], w, w1, e. split; [reflexivity|].
      split; [constructor|assumption].
Qed.

Lemma extract_events_are_extracts urls datas :
  Forall (λ ev, is_extract ev = true) (extract_events urls datas).
Proof.
  revert datas. induction urls as [|u us IH]; intros [|d ds]; simpl; constructor; auto.
Qed.

Lemma extract_events_count urls datas :
  length datas = length urls → count is_extract (extract_events urls datas) = length urls.
Proof.
  revert datas. induction urls as [|u us IH]; intros [|d ds]; simpl; try discriminate.
  - reflexivity.
  - intros [= Hlen]. rewrite count_cons. simpl. rewrite (IH _ Hlen). reflexivity.
Qed.

(** *** The [try] block of [run] *)

Lemma extract_block_for_url (urls : option (list string)) self w :
  extract_block urls self w = for_url (requested_urls urls) [] self w.
Proof. destruct urls as [[|u us]|]; reflexivity. Qed.

Lemma authenticate_block_authenticated credentials self w ev w' :
  authenticated self credentials w ev w' →
  authenticate_block credentials self w = Out self w' ev (Normal tt).
Proof.
  intros [w0|w0|c w0 w1 Hc Hauth]; simpl.
  - reflexivity.
  - rewrite bool_decide_false by (intros Hne; apply Hne; reflexivity). reflexivity.
  - rewrite bool_decide_true by assumption. unfold_M. rewrite Hauth. reflexivity.
Qed.

Lemma authenticate_block_false c self w w' :
  c ≠ ∅ → authenticate self c w = (w', Done false) →
  authenticate_block (Some c) self w =
    Out self w' [EAuthenticate c (Done false); ELog ERROR (auth_failed_message self)]
      (Return []).
Proof.
  intros Hc Hauth. simpl. rewrite bool_decide_true by assumption.
  unfold_M. rewrite Hauth. reflexivity.
Qed.

Lemma authenticate_block_raises c self w w' e :
  c ≠ ∅ → authenticate self c w = (w', Throw e) →
  authenticate_block (Some c) self w = Out self w' [EAuthenticate c (Throw e)] (Raise e).
Proof.
  intros Hc Hauth. simpl. rewrite bool_decide_true by assumption.
  unfold_M. rewrite Hauth. reflexivity.
Qed.

Lemma run_try_init_raises credentials urls self w s1 w1 ev1 e :
  init_browser self w = Out s1 w1 ev1 (Raise e) →
  run_try credentials urls self w = Out s1 w1 ev1 (Raise e).
Proof. intros Hinit. unfold run_try. erewrite bind_Raise by eassumption. reflexivity. Qed.

Lemma run_try_auth_raises c urls self w s1 w1 ev1 w2 e :
  init_browser self w = Out s1 w1 ev1 (Normal tt) →
  c ≠ ∅ → authenticate s1 c w1 = (w2, Throw e) →
  run_try (Some c) urls self w = Out s1 w2 (ev1 ++ [EAuthenticate c (Throw e)]) (Raise e).
Proof.
  intros Hinit Hc Hauth. unfold run_try. erewrite bind_Normal by eassumption.
  erewrite bind_Raise by (apply authenticate_block_raises; eassumption). reflexivity.
Qed.

Lemma run_try_auth_false c urls self w s1 w1 ev1 w2 :
  init_browser self w = Out s1 w1 ev1 (Normal tt) →
  c ≠ ∅ → authenticate s1 c w1 = (w2, Done false) →
  run_try (Some c) urls self w =
    Out s1 w2 (ev1 ++ [EAuthenticate c (Done false); ELog ERROR (auth_failed_message s1)])
      (Return []).
Proof.
  intros Hinit Hc Hauth. unfold run_try. erewrite bind_Normal by eassumption.
  erewrite bind_Return by (apply authenticate_block_false; eassumption). reflexivity.
Qed.

Lemma run_try_extracted credentials urls self w s1 w1 ev1 ev2 w2 datas w3 :
  init_browser self w = Out s1 w1 ev1 (Normal tt) →
  authenticated s1 credentials w1 ev2 w2 →
  extracts s1 (requested_urls urls) w2 datas w3 →
  run_try credentials urls self w =
    Out s1 w3 (ev1 ++ ev2 ++ extract_events (requested_urls urls) datas)
      (Return (concat datas)).
Proof.
  intros Hinit Hauth Hx. unfold run_try. erewrite bind_Normal by eassumption.
  erewrite bind_Normal by (apply authenticate_block_authenticated; eassumption).
  erewrite bind_Normal
    by (rewrite extract_block_for_url; apply for_url_extracts; eassumption).
  unfold return_, after. rewrite app_nil_r. reflexivity.
Qed.

Lemma run_try_extract_raises credentials pre url post self w s1 w1 ev1 ev2 w2 datas w3 w4 e :
  init_browser self w = Out s1 w1 ev1 (Normal tt) →
  authenticated s1 credentials w1 ev2 w2 →
  extracts s1 pre w2 datas w3 →
  extract_data s1 url w3 = (w4, Throw e) →
  run_try credentials (Some (pre ++ url :: post)) self w =
    Out s1 w4 (ev1 ++ ev2 ++ extract_events pre datas ++ [EExtract url (Throw e)]) (Raise e).
Proof.
  intros Hinit Hauth Hpre Hx. unfold run_try. erewrite bind_Normal by eassumption.
  erewrite bind_Normal by (apply authenticate_block_authenticated; eassumption).
  erewrite bind_Raise
    by (rewrite extract_block_for_url; eapply for_url_raises; eassumption).
  reflexivity.
Qed.

Lemma run_try_behaviour credentials urls self w :
  try_behaviour credentials urls self w (run_try credentials urls self w).
Proof.
  destruct (init_browser self w) as [s1 w1 ev1 [[]|v|e]] eqn:Hinit.
  - assert (∃ ev2 w2, authenticated s1 credentials w1 ev2 w2 ∨
              ∃ c r, credentials = Some c ∧ c ≠ ∅ ∧ authenticate s1 c w1 = (w2, r) ∧
                     r ≠ Done true) as (ev2 & w2 & Hauth).
    { destruct credentials as [c|]; [|exists [], w1; left; constructor].
      destruct (decide (c = ∅)) as [->|Hc]; [exists [], w1; left; constructor|].
      destruct (authenticate s1 c w1) as [w2 [[|]|e]] eqn:Ha.
      - exists [EAuthenticate c (Done true)], w2. left. by constructor.
      - exists [], w2. right. exists c, (Done false). by repeat split.
      - exists [], w2. right. exists c, (Throw e). by repeat split. }
    destruct Hauth as [Hauth|(c & r & -> & Hc & Ha & Hr)].
    + destruct (extracts_or_raises s1 (requested_urls urls) w2)
        as [(datas & w3 & Hx)|(pre & url & post & datas & w3 & w4 & e & Hurls & Hpre & Hx)].
      * erewrite run_try_extracted by eassumption. by econstructor.
      * destruct urls as [urls|]; [|by destruct pre]. simpl in Hurls. subst urls.
        erewrite run_try_extract_raises by eassumption. by econstructor.
    + destruct r as [[|]|e]; [done| |].
      * erewrite run_try_auth_false by eassumption. by econstructor.
      * erewrite run_try_auth_raises by eassumption. by econstructor.
  - exfalso. eapply (init_browser_not_Return self w v). rewrite Hinit. reflexivity.
  - erewrite run_try_init_raises by eassumption. by constructor.
Qed.

(** *** From the [try] block to [run] *)

Lemma run_try_except_Return credentials urls self w s1 w1 ev v :
  run_try credentials urls self w = Out s1 w1 ev (Return v) →
  run_try_except credentials urls self w = Out s1 w1 ev (Return v).
Proof. intros Htry. unfold run_try_except, try_except. rewrite Htry. reflexivity. Qed.

Lemma run_try_except_Raise credentials urls self w s1 w1 ev e :
  run_try credentials urls self w = Out s1 w1 ev (Raise e) →
  run_try_except credentials urls self w = Out s1 w1 (ev ++ handler_events s1 e) (Raise e).
Proof.
  intros Htry. unfold run_try_except, try_except, handler_events. rewrite Htry. simpl.
  destruct (exn_is_Exception e); [reflexivity|]. rewrite app_nil_r. reflexivity.
Qed.

(** Cleanup completes normally: the outcome of the [try]/[except] part is the
    outcome of the run. *)
Lemma run_cleanup_Normal credentials urls self w s1 w1 ev c s2 w2 evc :
  run_try_except credentials urls self w = Out s1 w1 ev c →
  close_browser s1 w1 = Out s2 w2 evc (Normal tt) →
  run credentials urls self w = (s2, w2, ev ++ evc, function_result c).
Proof.
  intros Htry Hclose. unfold run, run_body, try_finally. rewrite Htry. simpl.
  rewrite Hclose. reflexivity.
Qed.

(** Cleanup raises: its exception is what the caller gets. *)
Lemma run_cleanup_Raise credentials urls self w s1 w1 ev c s2 w2 evc e :
  run_try_except credentials urls self w = Out s1 w1 ev c →
  close_browser s1 w1 = Out s2 w2 evc (Raise e) →
  run credentials urls self w = (s2, w2, ev ++ evc, Throw e).
Proof.
  intros Htry Hclose. unfold run, run_body, try_finally. rewrite Htry. simpl.
  rewrite Hclose. reflexivity.
Qed.

Lemma run_trace credentials urls self w :
  trace (run credentials urls self w) =
    o_events (run_try_except credentials urls self w) ++
    o_events (close_browser (o_self (run_try_except credentials urls self w))
                (o_world (run_try_except credentials urls self w))).
Proof.
  unfold trace, run, run_body, try_finally.
  destruct (run_try_except credentials urls self w) as [s1 w1 ev1 c]; simpl.
  destruct (close_browser s1 w1) as [s2 w2 ev2 [[]|v|e]]; reflexivity.
Qed.

Lemma init_event_try_event (ev : event Record) : init_event ev = true → try_event ev = true.
Proof. destruct ev as [[]| | | | | | | | | |]; simpl; try done. Qed.

Lemma run_try_events credentials urls self w :
  Forall (λ ev, try_event ev = true) (o_events (run_try credentials urls self w)).
Proof.
  pose proof (init_browser_events self w) as Hinit.
  assert (∀ c ev w1 w2, authenticated c credentials w1 ev w2 →
            Forall (λ ev, try_event ev = true) ev) as Hauth.
  { intros c ev w1 w2 []; repeat constructor. }
  assert (∀ us ds, Forall (λ ev : event Record, try_event ev = true) (extract_events us ds))
    as Hextr.
  { intros us ds. eapply Forall_impl; [apply extract_events_are_extracts|].
    intros [] ?; done. }
  destruct (run_try_behaviour credentials urls self w);
    match goal with
    | Hi : init_browser self w = _ |- _ => rewrite Hi in Hinit; simpl in Hinit
    end; simpl;
    rewrite ?Forall_app; repeat split;
    eauto using Forall_impl, init_event_try_event; repeat constructor.
Qed.

Lemma run_try_self credentials urls self w :
  o_self (run_try credentials urls self w) = o_self (init_browser self w).
Proof.
  destruct (run_try_behaviour credentials urls self w);
    match goal with Hi : init_browser self w = _ |- _ => rewrite Hi end; reflexivity.
Qed.

Lemma run_try_except_events credentials urls self w :
  Forall (λ ev, try_event ev = true) (o_events (run_try_except credentials urls self w)).
Proof.
  pose proof (run_try_events credentials urls self w) as Htry.
  unfold run_try_except, try_except.
  destruct (run_try credentials urls self w) as [s1 w1 ev [[]|v|e]]; simpl in *; try done.
  destruct (exn_is_Exception e); simpl; [|done].
  rewrite Forall_app. split; [done|]. repeat constructor.
Qed.

Lemma run_try_except_self credentials urls self w :
  o_self (run_try_except credentials urls self w) = o_self (init_browser self w).
Proof.
  rewrite <- (run_try_self credentials urls). unfold run_try_except, try_except.
  destruct (run_try credentials urls self w) as [s1 w1 ev [[]|v|e]]; simpl; try done.
  destruct (exn_is_Exception e); reflexivity.
Qed.

Lemma try_event_not_close_call (ev : event Record) :
  try_event ev = true → is_close_call ev = false.
Proof. destruct ev as [[]| | | | | | | | | |]; simpl; done. Qed.

Lemma close_event_not_close_call (ev : event Record) :
  close_event ev = true → is_close_call ev = false.
Proof. destruct ev as [[]| | | | | | | | | |]; simpl; done. Qed.

(** ** The claims *)

(** C1. In every run in which browser acquisition succeeded, [close_browser]
    is entered exactly once: after everything the [try] block and its
    handler did (acquisition, [authenticate], every [extract_data], whether
    they returned or raised), and before the caller receives the outcome.
    Its first action is to close the page that was acquired. *)
Theorem run_closes_browser_exactly_once credentials urls self w s1 w1 ev1 :
  init_browser self w = Out s1 w1 ev1 (Normal tt) →
  count is_close_call (trace (run credentials urls self w)) = 1%nat ∧
  ∃ ev_try p r ev_close,
    trace (run credentials urls self w) =
      ev_try ++ ECall m_close_browser :: EPageClose p r :: ev_close ∧
    ev_try = o_events (run_try_except credentials urls self w) ∧
    Forall (λ ev, try_event ev = true) ev_try ∧
    page s1 = Some p ∧
    Forall (λ ev, close_event ev = true) ev_close.
Proof.
  intros Hinit.
  destruct (init_browser_Normal _ _ _ _ _ Hinit) as (b & p & Hs1 & _).
  assert (page s1 = Some p) as Hpage by (subst s1; reflexivity).
  pose proof (run_try_except_events credentials urls self w) as Htry.
  pose proof (run_try_except_self credentials urls self w) as Hself.
  rewrite Hinit in Hself. simpl in Hself.
  rewrite run_trace, Hself.
  destruct (close_browser_with_page s1 (o_world (run_try_except credentials urls self w)) p Hpage)
    as (r & ev_close & -> & Hclose).
  split.
  - rewrite count_app, !count_cons. simpl.
    rewrite (count_excluded _ _ _ try_event_not_close_call Htry).
    rewrite (count_excluded _ _ _ close_event_not_close_call Hclose). reflexivity.
  - exists (o_events (run_try_except credentials urls self w)), p, r, ev_close. done.
Qed.

(** C2, amended. When acquisition succeeds, authentication is not requested
    or succeeds, [extract_data] returns normally on every URL in turn, and
    cleanup completes normally ([close_browser] does not raise), [run]
    returns the concatenation, in URL order, of the record lists these calls
    produced. *)
Theorem run_returns_concatenation
    credentials urls self w s1 w1 ev1 ev2 w2 datas w3 s4 w4 ev4 :
  init_browser self w = Out s1 w1 ev1 (Normal tt) →
  authenticated s1 credentials w1 ev2 w2 →
  extracts s1 urls w2 datas w3 →
  close_browser s1 w3 = Out s4 w4 ev4 (Normal tt) →
  run credentials (Some urls) self w =
    (s4, w4, ev1 ++ ev2 ++ extract_events urls datas ++ ev4, Done (concat datas)).
Proof.
  intros Hinit Hauth Hx Hclose.
  erewrite run_cleanup_Normal; [|apply run_try_except_Return|eassumption].
  2: { eapply (run_try_extracted credentials (Some urls)); eassumption. }
  simpl. by rewrite <- !app_assoc.
Qed.

(** The [except] handler only adds its log line. *)
Lemma run_try_except_out credentials urls self w :
  run_try_except credentials urls self w =
    Out (o_self (run_try credentials urls self w)) (o_world (run_try credentials urls self w))
      (o_events (run_try credentials urls self w) ++
       match o_ctl (run_try credentials urls self w) with
       | Raise e => handler_events (o_self (run_try credentials urls self w)) e
       | _ => []
       end)
      (o_ctl (run_try credentials urls self w)).
Proof.
  unfold run_try_except, try_except, handler_events.
  destruct (run_try credentials urls self w) as [s1 w1 ev [[]|v|e]]; simpl.
  - by rewrite app_nil_r.
  - destruct (exn_is_Exception e); simpl; [reflexivity|]. by rewrite app_nil_r.
Qed.

Local Ltac excluded :=
  let ev := fresh "ev" in
  intros ev; destruct ev as [[]|[]| | | | | | | |? [[]|]|]; simpl; done.

Lemma count_close_events (f : event Record → bool) self w :
  f (ECall m_close_browser) = false →
  (∀ ev, close_event ev = true → f ev = false) →
  count f (o_events (close_browser self w)) = 0%nat.
Proof.
  intros Hcall Hf. destruct (close_browser_events self w) as (evs & -> & Hevs).
  rewrite count_cons, Hcall. simpl. eapply count_excluded; eassumption.
Qed.

Lemma count_handler_events (f : event Record → bool) self e :
  (∀ lvl msg, f (ELog lvl msg) = false) → count f (handler_events self e) = 0%nat.
Proof.
  intros Hf. unfold handler_events. destruct (exn_is_Exception e); [|reflexivity].
  rewrite count_cons, Hf. reflexivity.
Qed.

Lemma count_extract_events (f : event Record → bool) urls datas :
  (∀ url data, f (EExtract url (Done data)) = false) →
  count f (extract_events urls datas) = 0%nat.
Proof.
  intros Hf. revert datas. induction urls as [|u us IH]; intros [|d ds]; simpl; try done.
  rewrite count_cons, Hf, IH. reflexivity.
Qed.

(** C3, amended. In every run in which [authenticate] returns [False],
    [extract_data] is never called; and when cleanup completes normally (no
    close raises) [run] raises nothing and returns the empty list. *)
Theorem run_authentication_failure credentials urls self w :
  count auth_returned_false (trace (run credentials urls self w)) ≠ 0%nat →
  count is_extract (trace (run credentials urls self w)) = 0%nat ∧
  (count close_raised (trace (run credentials urls self w)) = 0%nat →
   outcome (run credentials urls self w) = Done []).
Proof.
  intros Hfalse.
  rewrite run_trace, run_try_except_out in Hfalse |- *.
  cbn [o_events o_self o_world o_ctl] in Hfalse |- *.
  rewrite !count_app in Hfalse |- *.
  rewrite (count_close_events auth_returned_false) in Hfalse by (done || excluded).
  rewrite (count_close_events is_extract) by (done || excluded).
  pose proof (init_browser_events self w) as Hinit.
  pose proof (run_try_behaviour credentials urls self w) as Hb.
  remember (run_try credentials urls self w) as o eqn:Ho in *.
  destruct Hb as [s1 w1 ev1 e Hi|c s1 w1 ev1 w2 e -> Hc Hi Ha
                 |c s1 w1 ev1 w2 -> Hc Hi Ha
                 |s1 w1 ev1 ev2 w2 datas w3 Hi Ha Hx
                 |pre url post s1 w1 ev1 ev2 w2 datas w3 w4 e -> Hi Ha Hx He];
    rewrite Hi in Hinit;
    cbn [o_events o_self o_world o_ctl] in Hinit, Hfalse |- *.
  - exfalso. apply Hfalse.
    rewrite (count_excluded auth_returned_false init_event) by (excluded || done).
    rewrite count_handler_events by done. reflexivity.
  - exfalso. apply Hfalse. rewrite count_app.
    rewrite (count_excluded auth_returned_false init_event) by (excluded || done).
    rewrite count_handler_events by done. reflexivity.
  - split.
    + rewrite count_app.
      rewrite (count_excluded is_extract init_event) by (excluded || done). reflexivity.
    + intros Hclose. rewrite !count_app in Hclose.
      assert (o_ctl (close_browser s1 w2) = Normal tt) as Hnormal.
      { apply close_browser_Normal_iff. lia. }
      symmetry in Ho. apply run_try_except_Return in Ho.
      pose proof (out_eta (close_browser s1 w2)) as Hout. rewrite Hnormal in Hout.
      rewrite (run_cleanup_Normal _ _ _ _ _ _ _ _ _ _ _ Ho Hout). reflexivity.
  - exfalso. apply Hfalse. rewrite !count_app.
    rewrite (count_excluded auth_returned_false init_event) by (excluded || done).
    rewrite count_extract_events by done.
    destruct Ha; reflexivity.
  - exfalso. apply Hfalse. rewrite !count_app.
    rewrite (count_excluded auth_returned_false init_event) by (excluded || done).
    rewrite count_extract_events by done. rewrite count_handler_events by done.
    destruct Ha; reflexivity.
Qed.

(** Even when cleanup raises as well, a failed extraction never lets records
    reach the caller. *)
Lemma failed_extraction_returns_nothing
    credentials pre url post self w s1 w1 ev1 ev2 w2 datas w3 w4 e v :
  init_browser self w = Out s1 w1 ev1 (Normal tt) →
  authenticated s1 credentials w1 ev2 w2 →
  extracts s1 pre w2 datas w3 →
  extract_data s1 url w3 = (w4, Throw e) →
  outcome (run credentials (Some (pre ++ url :: post)) self w) ≠ Done v.
Proof.
  intros Hinit Hauth Hpre Hx.
  pose proof (run_try_extract_raises credentials pre url post _ _ _ _ _ _ _ _ _ _ e
                Hinit Hauth Hpre Hx) as Htry.
  apply run_try_except_Raise in Htry.
  destruct (close_browser s1 w4) as [s5 w5 ev5 [[]|v'|e']] eqn:Hclose.
  - erewrite run_cleanup_Normal by eassumption. discriminate.
  - exfalso. eapply (close_browser_not_Return s1 w4 v'). by rewrite Hclose.
  - erewrite run_cleanup_Raise by eassumption. discriminate.
Qed.

(** C4, amended. When [extract_data] raises on a URL after returning
    normally on the URLs before it, [extract_data] is called on no later URL
    (the trace holds one call per URL up to the failing one and none after)
    and no records are returned.  When cleanup completes normally (no close
    raises), [run] closes the acquired page and browser and then raises that
    same error. *)
Theorem run_extraction_error
    credentials pre url post self w s1 w1 ev1 ev2 w2 datas w3 w4 e :
  init_browser self w = Out s1 w1 ev1 (Normal tt) →
  authenticated s1 credentials w1 ev2 w2 →
  extracts s1 pre w2 datas w3 →
  extract_data s1 url w3 = (w4, Throw e) →
  (∀ v, outcome (run credentials (Some (pre ++ url :: post)) self w) ≠ Done v) ∧
  count is_extract (trace (run credentials (Some (pre ++ url :: post)) self w)) =
    S (length pre) ∧
  ∃ b p,
    browser s1 = Some b ∧ page s1 = Some p ∧
    (count close_raised (trace (run credentials (Some (pre ++ url :: post)) self w)) = 0%nat →
     ∃ w5,
       run credentials (Some (pre ++ url :: post)) self w =
         (s1, w5,
          ev1 ++ ev2 ++ extract_events pre datas ++ [EExtract url (Throw e)] ++
            handler_events s1 e ++
            [ECall m_close_browser; EPageClose p (Done tt); EBrowserClose b (Done tt);
             ELog INFO (closed_message s1)],
          Throw e)).
Proof.
  intros Hinit Hauth Hpre Hx.
  pose proof (run_try_except_Raise _ _ _ _ _ _ _ _
                (run_try_extract_raises credentials pre url post _ _ _ _ _ _ _ _ _ _ e
                   Hinit Hauth Hpre Hx)) as Htry.
  split; [|split].
  - intros v. eapply failed_extraction_returns_nothing; eassumption.
  - rewrite run_trace, Htry. cbn [o_events o_self o_world].
    pose proof (init_browser_events self w) as Hev1. rewrite Hinit in Hev1. simpl in Hev1.
    repeat (rewrite count_app || rewrite count_cons). simpl.
    rewrite (count_excluded is_extract init_event) by (excluded || done).
    rewrite (extract_events_count pre datas) by (eapply extracts_length; eassumption).
    rewrite count_handler_events by done.
    rewrite (count_close_events is_extract) by (done || excluded).
    assert (count is_extract ev2 = 0%nat) as -> by (destruct Hauth; reflexivity).
    change (count is_extract []) with 0%nat. lia.
  - destruct (init_browser_Normal _ _ _ _ _ Hinit) as (b & p & Hs1 & _).
    exists b, p. split; [by subst s1|]. split; [by subst s1|].
    rewrite run_trace, Htry. cbn [o_events o_self o_world]. rewrite count_app.
    intros Hclose.
    destruct (close_browser_closes_both s1 w4 p b) as (w5 & Hcb);
      [by subst s1|by subst s1|lia|].
    exists w5. rewrite (run_cleanup_Normal _ _ _ _ _ _ _ _ _ _ _ Htry Hcb).
    simpl. by rewrite <- !app_assoc.
Qed.

(** C5, amended. [close_browser] has no error handling of its own: it
    returns normally exactly when no close it performs raises.  In a run
    where no close raises, the outcome or error of the [try]/[except] part
    reaches the caller unchanged. *)
Theorem cleanup_raises_only_when_close_raises credentials urls self w self' w' :
  (o_ctl (close_browser self' w') = Normal tt ↔
   count close_raised (o_events (close_browser self' w')) = 0%nat) ∧
  (count close_raised (trace (run credentials urls self w)) = 0%nat →
   outcome (run credentials urls self w) =
     function_result (o_ctl (run_try_except credentials urls self w))).
Proof.
  split; [apply close_browser_Normal_iff|].
  rewrite run_trace, count_app. intros Hclose.
  destruct (run_try_except credentials urls self w) as [s1 w1 ev c] eqn:Htry.
  cbn [o_events o_self o_world o_ctl] in *.
  assert (o_ctl (close_browser s1 w1) = Normal tt) as Hnormal
    by (apply close_browser_Normal_iff; lia).
  pose proof (out_eta (close_browser s1 w1)) as Hout. rewrite Hnormal in Hout.
  rewrite (run_cleanup_Normal _ _ _ _ _ _ _ _ _ _ _ Htry Hout). reflexivity.
Qed.

(** An exception raised by a close leaves [run] in place of whatever the
    [try]/[except] part had produced. *)
Lemma cleanup_error_replaces_outcome credentials urls self w e :
  o_ctl (close_browser (o_self (run_try_except credentials urls self w))
           (o_world (run_try_except credentials urls self w))) = Raise e →
  outcome (run credentials urls self w) = Throw e.
Proof.
  destruct (run_try_except credentials urls self w) as [s1 w1 ev c] eqn:Htry.
  cbn [o_self o_world]. intros Hraise.
  pose proof (out_eta (close_browser s1 w1)) as Hout. rewrite Hraise in Hout.
  rewrite (run_cleanup_Raise _ _ _ _ _ _ _ _ _ _ _ _ Htry Hout). reflexivity.
Qed.

Lemma run_falsy_credentials credentials urls self w :
  truthy credentials = false →
  run credentials urls self w = run None urls self w.
Proof.
  intros Hfalsy. destruct credentials as [c|]; [|reflexivity]. simpl in Hfalsy.
  unfold run, run_body, try_finally, run_try_except, try_except, run_try.
  unfold authenticate_block. rewrite Hfalsy. reflexivity.
Qed.

(** C6, amended. When acquisition succeeds, [authenticate] is called once,
    right after acquisition and so before any extraction, exactly when a
    non-empty credentials mapping was passed; with credentials omitted or
    empty it is never called, and the run is the run without credentials. *)
Theorem authenticate_iff_nonempty_credentials credentials urls self w s1 w1 ev1 :
  init_browser self w = Out s1 w1 ev1 (Normal tt) →
  count is_authenticate (trace (run credentials urls self w)) =
    (if truthy credentials then 1 else 0)%nat ∧
  (∀ c, credentials = Some c → c ≠ ∅ →
     ∃ r ev_rest, trace (run credentials urls self w) = ev1 ++ EAuthenticate c r :: ev_rest) ∧
  count is_extract ev1 = 0%nat ∧
  (truthy credentials = false → run credentials urls self w = run None urls self w).
Proof.
  intros Hinit.
  pose proof (init_browser_events self w) as Hev1. rewrite Hinit in Hev1. simpl in Hev1.
  split; [|split; [|split]].
  - rewrite run_trace, run_try_except_out.
    cbn [o_events o_self o_world o_ctl]. rewrite !count_app.
    rewrite (count_close_events is_authenticate) by (done || excluded).
    assert (∀ ev2 w1 w2, authenticated s1 credentials w1 ev2 w2 →
              count is_authenticate ev2 = (if truthy credentials then 1 else 0)%nat) as Hauth.
    { intros ev2 w0 w2 [w3|w3|c w3 w4 Hc Ha]; simpl; try reflexivity.
      by rewrite bool_decide_true. }
    pose proof (run_try_behaviour credentials urls self w) as Hb.
    remember (run_try credentials urls self w) as o eqn:Ho in *.
    destruct Hb as [s0 w0 ev0 e Hi|c s0 w0 ev0 w2 e -> Hc Hi Ha
                   |c s0 w0 ev0 w2 -> Hc Hi Ha
                   |s0 w0 ev0 ev2 w2 datas w3 Hi Ha Hx
                   |pre url post s0 w0 ev0 ev2 w2 datas w3 w4 e -> Hi Ha Hx He];
      rewrite Hinit in Hi; try discriminate; injection Hi as <- <- <-;
      cbn [o_events o_self o_world o_ctl]; rewrite ?count_app;
      rewrite (count_excluded is_authenticate init_event) by (excluded || done);
      rewrite ?count_handler_events by done; rewrite ?count_extract_events by done;
      rewrite ?(Hauth _ _ _ Ha); simpl; rewrite ?bool_decide_true by done;
      repeat match goal with |- context [truthy ?c] => destruct (truthy c) end;
      reflexivity.
  - intros c -> Hc.
    rewrite run_trace, run_try_except_out. cbn [o_events o_self o_world o_ctl].
    pose proof (run_try_behaviour (Some c) urls self w) as Hb.
    remember (run_try (Some c) urls self w) as o eqn:Ho in *.
    destruct Hb as [s0 w0 ev0 e Hi|c' s0 w0 ev0 w2 e [= <-] _ Hi Ha
                   |c' s0 w0 ev0 w2 [= <-] _ Hi Ha
                   |s0 w0 ev0 ev2 w2 datas w3 Hi Ha Hx
                   |pre url post s0 w0 ev0 ev2 w2 datas w3 w4 e -> Hi Ha Hx He];
      rewrite Hinit in Hi; try discriminate; injection Hi as <- <- <-;
      cbn [o_events o_self o_world o_ctl];
      try (inversion Ha; subst; [done|]);
      rewrite <- !app_assoc; simpl; eauto.
  - eapply count_excluded; [|eassumption]. excluded.
  - apply run_falsy_credentials.
Qed.

(** C7. With a page held: when [page.goto] raises (the load did not reach
    network idle within the 30000 ms timeout), [navigate_to] logs an error
    line carrying the site name and the failure's text and then raises that
    same error; when the load succeeds it next waits [wait_time] on the
    page before returning. *)
Theorem navigate_to_fails_loudly_and_settles url wait_time self w p :
  page self = Some p →
  (∀ w1 e,
     page_goto p url "networkidle" 30000 w = (w1, Throw e) →
     exn_is_Exception e = true →
     navigate_to url wait_time self w =
       Out self w1
         [ECall m_navigate_to; EGoto p url "networkidle" 30000 (Throw e);
          ELog ERROR ("[" +:+ site_name self +:+ "] failed to navigate to: " +:+ exn_str e)]
         (Raise e)) ∧
  (∀ w1,
     page_goto p url "networkidle" 30000 w = (w1, Done tt) →
     ∃ w2 r ev_log,
       page_wait_for_timeout p wait_time w1 = (w2, r) ∧
       navigate_to url wait_time self w =
         Out self w2
           (ECall m_navigate_to :: EGoto p url "networkidle" 30000 (Done tt) ::
            EWait p wait_time r :: ev_log)
           (lift r) ∧
       (r = Done tt →
        ev_log = [ELog INFO ("[" +:+ site_name self +:+ "] successfully navigated to: " +:+ url)])).
Proof.
  intros Hpage. split.
  - intros w1 e Hgoto Hexn. unfold navigate_to, try_except. unfold_M. simpl.
    rewrite Hpage. simpl. rewrite Hgoto. simpl. rewrite Hexn. reflexivity.
  - intros w1 Hgoto. unfold navigate_to, try_except. unfold_M. simpl.
    rewrite Hpage. simpl. rewrite Hgoto. simpl. rewrite Hpage. simpl.
    destruct (page_wait_for_timeout p wait_time w1) as [w2 [[]|e]] eqn:Hwait; simpl.
    + exists w2, (Done tt). eexists. split; [reflexivity|]. split; [reflexivity|]. done.
    + exists w2, (Throw e). destruct (exn_is_Exception e); simpl;
        eexists; (split; [reflexivity|]); (split; [reflexivity|]); done.
Qed.

(** *** One browser, one page *)

Lemma run_close_call_count credentials urls self w :
  count is_close_call (trace (run credentials urls self w)) = 1%nat.
Proof.
  rewrite run_trace, count_app.
  rewrite (count_excluded _ _ _ try_event_not_close_call
             (run_try_except_events credentials urls self w)).
  destruct (close_browser_events (o_self (run_try_except credentials urls self w))
              (o_world (run_try_except credentials urls self w))) as (evs & -> & Hevs).
  rewrite count_cons. simpl.
  rewrite (count_excluded _ _ _ close_event_not_close_call Hevs). reflexivity.
Qed.

Lemma run_final_self credentials urls self w :
  final_self (run credentials urls self w) = o_self (init_browser self w).
Proof.
  rewrite <- (run_try_except_self credentials urls).
  unfold final_self, run, run_body, try_finally.
  destruct (run_try_except credentials urls self w) as [s1 w1 ev1 c]; simpl.
  pose proof (close_browser_self s1 w1) as Hself.
  destruct (close_browser s1 w1) as [s2 w2 ev2 [[]|v|e]]; exact Hself.
Qed.

(** After a successful acquisition the [try]/[except] part only adds calls
    of the strategy and log lines. *)
Lemma run_try_except_after_init credentials urls self w s1 w1 ev1 :
  init_browser self w = Out s1 w1 ev1 (Normal tt) →
  ∃ rest, o_events (run_try_except credentials urls self w) = ev1 ++ rest ∧
          Forall (λ ev, strategy_event ev = true) rest.
Proof.
  intros Hinit. rewrite run_try_except_out. cbn [o_events].
  assert (∀ ev2 w1 w2, authenticated s1 credentials w1 ev2 w2 →
            Forall (λ ev, strategy_event ev = true) ev2) as Hauth.
  { intros ev2 w0 w2 []; repeat constructor. }
  assert (∀ us ds, Forall (λ ev : event Record, strategy_event ev = true)
                     (extract_events us ds)) as Hextr.
  { intros us ds. eapply Forall_impl; [apply extract_events_are_extracts|].
    intros [] ?; done. }
  assert (∀ s e, Forall (λ ev : event Record, strategy_event ev = true)
                   (handler_events s e)) as Hhandler.
  { intros s e. unfold handler_events. destruct (exn_is_Exception e); repeat constructor. }
  pose proof (run_try_behaviour credentials urls self w) as Hb.
  remember (run_try credentials urls self w) as o eqn:Ho in *.
  destruct Hb as [s0 w0 ev0 e Hi|c s0 w0 ev0 w2 e -> Hc Hi Ha
                 |c s0 w0 ev0 w2 -> Hc Hi Ha
                 |s0 w0 ev0 ev2 w2 datas w3 Hi Ha Hx
                 |pre url post s0 w0 ev0 ev2 w2 datas w3 w4 e -> Hi Ha Hx He];
    rewrite Hinit in Hi; try discriminate; injection Hi as <- <- <-;
    cbn [o_events o_self o_world o_ctl]; rewrite <- ?app_assoc;
    eexists; (split; [reflexivity|]);
    rewrite ?Forall_app; repeat split; eauto; repeat constructor.
Qed.

(** C8, amended. In a run in which acquisition succeeds and no close
    raises, exactly one browser process and one page are created and both
    are closed.  The controller's [browser] and [page] fields are not reset:
    after the run they still refer to these, now closed, handles. *)
Theorem one_browser_one_page_per_run credentials urls self w s1 w1 ev1 :
  init_browser self w = Out s1 w1 ev1 (Normal tt) →
  count close_raised (trace (run credentials urls self w)) = 0%nat →
  ∃ b p,
    launched (trace (run credentials urls self w)) = [b] ∧
    opened_pages (trace (run credentials urls self w)) = [p] ∧
    browser_closed b (trace (run credentials urls self w)) = true ∧
    page_closed p (trace (run credentials urls self w)) = true ∧
    browser (final_self (run credentials urls self w)) = Some b ∧
    page (final_self (run credentials urls self w)) = Some p.
Proof.
  intros Hinit Hclose.
  destruct (init_browser_Normal _ _ _ _ _ Hinit) as (b & p & Hs1 & Hev1).
  destruct (run_try_except_after_init credentials urls _ _ _ _ _ Hinit) as (rest & Hev & Hrest).
  pose proof (run_try_except_self credentials urls self w) as Hself.
  rewrite Hinit in Hself. cbn [o_self] in Hself.
  rewrite run_final_self, Hinit. cbn [o_self].
  rewrite run_trace, Hself in Hclose |- *. rewrite count_app in Hclose.
  destruct (close_browser_closes_both s1 (o_world (run_try_except credentials urls self w)) p b)
    as (w' & Hcb); [by subst s1|by subst s1|lia|].
  rewrite Hcb, Hev. cbn [o_events]. exists b, p.
  unfold launched, opened_pages, browser_closed, page_closed.
  rewrite !omap_app, !existsb_app.
  rewrite (omap_excluded _ strategy_event rest) by (excluded || done).
  rewrite (omap_excluded _ strategy_event rest) by (excluded || done).
  subst ev1 s1. simpl. rewrite !Nat.eqb_refl, !orb_true_r. done.
Qed.

(** C9. [close_browser] closes the page only if one is held and the browser
    only if one is held.  With no page held it performs no page close, with
    no browser held no browser close; with neither it just logs and returns;
    with only the browser held its outcome is that of the browser close.
    This is the state a failed acquisition leaves on a new controller: the
    page field is never set, and the browser field is set only once the
    launch has succeeded. *)
Theorem close_browser_partial_state self w :
  (page self = None → count is_page_close (o_events (close_browser self w)) = 0%nat) ∧
  (browser self = None → count is_browser_close (o_events (close_browser self w)) = 0%nat) ∧
  (page self = None → browser self = None →
   close_browser self w =
     Out self w [ECall m_close_browser; ELog INFO (closed_message self)] (Normal tt)) ∧
  (∀ b, page self = None → browser self = Some b →
   ∃ w' r, browser_close b w = (w', r) ∧ o_world (close_browser self w) = w' ∧
           o_ctl (close_browser self w) = lift r) ∧
  (∀ name h w0 e,
     o_ctl (init_browser (init name h) w0) = Raise e →
     page (o_self (init_browser (init name h) w0)) = None ∧
     (launched (o_events (init_browser (init name h) w0)) = [] →
      browser (o_self (init_browser (init name h) w0)) = None)).
Proof.
  split; [|split; [|split; [|split]]].
  - intros Hp. unfold close_browser. unfold_M. simpl. rewrite Hp. simpl.
    repeat case_call; reflexivity.
  - intros Hb. unfold close_browser. unfold_M. simpl.
    destruct (page self) as [p|]; simpl; [case_call|]; rewrite ?Hb; reflexivity.
  - apply close_browser_nothing.
  - intros b Hp Hb. destruct (browser_close b w) as [w' r] eqn:Hc.
    exists w', r. rewrite (close_browser_only_browser _ _ _ _ _ Hp Hb Hc). done.
  - intros name h w0 e. unfold init_browser. unfold_M. simpl.
    repeat case_call; intros [= <-]; simpl; try done.
Qed.

(** Without credentials and without URLs the [try] block is acquisition
    alone. *)
Lemma run_try_bare_events self w :
  Forall (λ ev, init_event ev = true) (o_events (run_try None None self w)).
Proof.
  pose proof (init_browser_events self w) as Hinit.
  pose proof (run_try_behaviour None None self w) as Hb.
  remember (run_try None None self w) as o eqn:Ho in *.
  destruct Hb as [s0 w0 ev0 e Hi|c s0 w0 ev0 w2 e [=] Hc Hi Ha
                 |c s0 w0 ev0 w2 [=] Hc Hi Ha
                 |s0 w0 ev0 ev2 w2 datas w3 Hi Ha Hx
                 |pre url post s0 w0 ev0 ev2 w2 datas w3 w4 e [=] Hi Ha Hx He];
    rewrite Hi in Hinit; cbn [o_events] in *; [done|].
  inversion Ha; subst. simpl. by rewrite app_nil_r.
Qed.

(** C10, amended. Without credentials, omitting [urls] and passing the
    empty list give the same run.  It never calls [extract_data] or
    [authenticate] and enters [close_browser] once; when acquisition and
    cleanup complete normally it returns the empty list, having started one
    browser and closed it. *)
Theorem run_without_urls self w :
  run None None self w = run None (Some []) self w ∧
  count is_extract (trace (run None None self w)) = 0%nat ∧
  count is_authenticate (trace (run None None self w)) = 0%nat ∧
  count is_close_call (trace (run None None self w)) = 1%nat ∧
  (∀ s1 w1 ev1 s2 w2 ev2,
     init_browser self w = Out s1 w1 ev1 (Normal tt) →
     close_browser s1 w1 = Out s2 w2 ev2 (Normal tt) →
     run None None self w = (s2, w2, ev1 ++ ev2, Done []) ∧
     ∃ b, launched (ev1 ++ ev2) = [b] ∧ browser_closed b (ev1 ++ ev2) = true).
Proof.
  split; [reflexivity|].
  assert (∀ f : event Record → bool,
            f (ECall m_close_browser) = false →
            (∀ lvl msg, f (ELog lvl msg) = false) →
            (∀ ev, init_event ev = true → f ev = false) →
            (∀ ev, close_event ev = true → f ev = false) →
            count f (trace (run None None self w)) = 0%nat) as Hnone.
  { intros f Hcall Hlog Hinit Hclose.
    rewrite run_trace, run_try_except_out. cbn [o_events o_self o_world o_ctl].
    rewrite !count_app, (count_close_events f) by assumption.
    rewrite (count_excluded f init_event _ Hinit (run_try_bare_events self w)).
    destruct (o_ctl (run_try None None self w)); rewrite ?count_handler_events by assumption;
      reflexivity. }
  split; [apply Hnone; (done || excluded)|].
  split; [apply Hnone; (done || excluded)|].
  split; [apply run_close_call_count|].
  intros s1 w1 ev1 s2 w2 ev2 Hinit Hclose. split.
  - erewrite run_cleanup_Normal; [|apply run_try_except_Return|eassumption].
    2: { eapply (run_try_extracted None None); [eassumption|constructor|constructor]. }
    simpl. by rewrite app_nil_r.
  - destruct (init_browser_Normal _ _ _ _ _ Hinit) as (b & p & Hs1 & Hev).
    assert (count close_raised (o_events (close_browser s1 w1)) = 0%nat) as Hquiet.
    { apply close_browser_Normal_iff. by rewrite Hclose. }
    destruct (close_browser_closes_both s1 w1 p b) as (w' & Hcb);
      [by subst s1|by subst s1|done|].
    rewrite Hclose in Hcb. injection Hcb as _ _ ->.
    exists b. subst ev1. unfold launched, browser_closed. simpl.
    rewrite Nat.eqb_refl. done.
Qed.

(** ** Further properties of the lifecycle *)

(** *** Errors before extraction *)



(** X3. An exception that is not an instance of [Exception] (a
    cancellation) passes the [except Exception] handler: [run] logs no
    "execution failed" line for it, but still enters [close_browser] once
    and, cleanup completing normally, raises it. *)
Theorem non_Exception_is_not_logged credentials urls self w s1 w1 ev e :
  run_try credentials urls self w = Out s1 w1 ev (Raise e) →
  exn_is_Exception e = false →
  trace (run credentials urls self w) = ev ++ o_events (close_browser s1 w1) ∧
  count is_close_call (trace (run credentials urls self w)) = 1%nat ∧
  (o_ctl (close_browser s1 w1) = Normal tt →
   outcome (run credentials urls self w) = Throw e).
Proof.
  intros Htry Hexn.
  pose proof (run_try_except_Raise _ _ _ _ _ _ _ _ Htry) as Hte.
  unfold handler_events in Hte. rewrite Hexn, app_nil_r in Hte.
  split; [|split].
  - rewrite run_trace, Hte. reflexivity.
  - apply run_close_call_count.
  - intros Hnormal.
    pose proof (out_eta (close_browser s1 w1)) as Hout. rewrite Hnormal in Hout.
    rewrite (run_cleanup_Normal _ _ _ _ _ _ _ _ _ _ _ Hte Hout). reflexivity.
Qed.

(** *** [navigate_to] at its edges *)

(** X4. Called on a controller that holds no page (before any acquisition),
    [navigate_to] makes no call to the browser: reading [self.page.goto]
    raises, the error is logged and raised again, and the world is
    untouched. *)
Theorem navigate_to_without_page url wait_time self w :
  page self = None →
  ∃ e, exn_is_Exception e = true ∧
    navigate_to url wait_time self w =
      Out self w
        [ECall m_navigate_to;
         ELog ERROR ("[" +:+ site_name self +:+ "] failed to navigate to: " +:+ exn_str e)]
        (Raise e).
Proof.
  intros Hpage. eexists. split; [|unfold navigate_to, try_except; unfold_M; simpl;
                                  rewrite Hpage; reflexivity].
  reflexivity.
Qed.

(** X5. When the page loads but the settle wait raises, [navigate_to]
    reports it like a failed load: it logs "failed to navigate to" with the
    error's text and raises the error; the success line is not logged. *)
Theorem navigate_to_settle_failure url wait_time self w p w1 w2 e :
  page self = Some p →
  page_goto p url "networkidle" 30000 w = (w1, Done tt) →
  page_wait_for_timeout p wait_time w1 = (w2, Throw e) →
  exn_is_Exception e = true →
  navigate_to url wait_time self w =
    Out self w2
      [ECall m_navigate_to; EGoto p url "networkidle" 30000 (Done tt);
       EWait p wait_time (Throw e);
       ELog ERROR ("[" +:+ site_name self +:+ "] failed to navigate to: " +:+ exn_str e)]
      (Raise e).
Proof.
  intros Hpage Hgoto Hwait Hexn. unfold navigate_to, try_except. unfold_M. simpl.
  rewrite Hpage. simpl. rewrite Hgoto. simpl. rewrite Hpage. simpl.
  rewrite Hwait. simpl. rewrite Hexn. reflexivity.
Qed.

(** *** Cleanup and the handles it is given *)

(** X6. When [page.close()] raises, [close_browser] stops there:
    [browser.close()] is not called, and the "closed" line is not logged. *)
Theorem page_close_failure_skips_browser_close self w p w' e :
  page self = Some p →
  page_close p w = (w', Throw e) →
  o_ctl (close_browser self w) = Raise e ∧
  count is_browser_close (o_events (close_browser self w)) = 0%nat ∧
  ELog INFO (closed_message self) ∉ o_events (close_browser self w).
Proof.
  intros Hp Hc. rewrite (close_browser_page_raises _ _ _ _ _ Hp Hc). simpl.
  split; [done|]. split; [done|].
  intros Hin. apply elem_of_cons in Hin as [[=]|Hin].
  apply elem_of_cons in Hin as [[=]|Hin]. by apply elem_of_nil in Hin.
Qed.

(** X7. [close_browser] does not clear the fields it closes: called a
    second time, it starts by closing the same page once more. *)
Theorem close_browser_again_closes_again self w p :
  page self = Some p →
  ∃ r evs,
    o_events (close_browser (o_self (close_browser self w)) (o_world (close_browser self w))) =
      ECall m_close_browser :: EPageClose p r :: evs.
Proof.
  intros Hp. rewrite close_browser_self.
  destruct (close_browser_with_page self (o_world (close_browser self w)) p Hp)
    as (r & evs & Hev & _).
  eauto.
Qed.

(** Acquisition that launches no browser leaves the fields as they were. *)
Lemma init_browser_without_launch self w :
  launched (o_events (init_browser self w)) = [] →
  o_self (init_browser self w) = self ∧ ∃ e, o_ctl (init_browser self w) = Raise e.
Proof.
  unfold init_browser, launched. unfold_M. simpl.
  repeat case_call; simpl; intros Hl; try discriminate; eauto.
Qed.

(** X8. The fields outlive a run: on a controller that still holds a page
    from an earlier run, a run in which no browser gets launched (start or
    launch raises) calls [page.close()] on that earlier page during
    cleanup. *)
Theorem failed_launch_closes_previous_page credentials urls self w p0 :
  page self = Some p0 →
  launched (o_events (init_browser self w)) = [] →
  ∃ ev_try r ev_close,
    trace (run credentials urls self w) =
      ev_try ++ ECall m_close_browser :: EPageClose p0 r :: ev_close ∧
    count is_close_call ev_try = 0%nat.
Proof.
  intros Hp Hnone.
  destruct (init_browser_without_launch self w Hnone) as (Hself & _).
  rewrite run_trace, run_try_except_self, Hself.
  destruct (close_browser_with_page self (o_world (run_try_except credentials urls self w)) p0 Hp)
    as (r & ev_close & -> & _).
  exists (o_events (run_try_except credentials urls self w)), r, ev_close.
  split; [reflexivity|].
  exact (count_excluded _ _ _ try_event_not_close_call
           (run_try_except_events credentials urls self w)).
Qed.

(** X9. A browser that was launched but whose page could not be opened is
    not leaked: on a controller holding no page, cleanup skips the page and
    closes that browser; the caller gets the page error, or the error of the
    browser close if that raises too. *)
Theorem browser_without_page_is_closed credentials urls self w w1 b w2 w3 e w4 r :
  page self = None →
  playwright_start w = (w1, Done tt) →
  chromium_launch (headless self) w1 = (w2, Done b) →
  browser_new_page b w2 = (w3, Throw e) →
  browser_close b w3 = (w4, r) →
  trace (run credentials urls self w) =
    [ECall m_init_browser; EStart (Done tt); ELaunch (headless self) (Done b);
     ENewPage b (Throw e)] ++
    handler_events (set_browser_field (Some b) self) e ++
    ECall m_close_browser :: EBrowserClose b r ::
      match r with
      | Done _ => [ELog INFO (closed_message self)]
      | Throw _ => []
      end ∧
  outcome (run credentials urls self w) =
    match r with Done _ => Throw e | Throw e' => Throw e' end.
Proof.
  intros Hp Hstart Hlaunch Hnew Hclose.
  assert (init_browser self w =
            Out (set_browser_field (Some b) self) w3
              [ECall m_init_browser; EStart (Done tt); ELaunch (headless self) (Done b);
               ENewPage b (Throw e)] (Raise e)) as Hinit.
  { unfold init_browser. unfold_M. simpl. rewrite Hstart. simpl. rewrite Hlaunch. simpl.
    rewrite Hnew. reflexivity. }
  pose proof (run_try_except_Raise credentials urls _ _ _ _ _ _
                (run_try_init_raises credentials urls _ _ _ _ _ _ Hinit)) as Htry.
  pose proof (close_browser_only_browser (set_browser_field (Some b) self) w3 b w4 r
                Hp eq_refl Hclose) as Hcb.
  destruct r as [[]|e'].
  - rewrite (run_cleanup_Normal _ _ _ _ _ _ _ _ _ _ _ Htry Hcb).
    unfold trace, outcome. simpl. by rewrite <- ?app_assoc.
  - rewrite (run_cleanup_Raise _ _ _ _ _ _ _ _ _ _ _ _ Htry Hcb).
    unfold trace, outcome. simpl. by rewrite <- ?app_assoc.
Qed.

(** X10. Whatever cleanup raises is what the caller of [run] gets, in place
    of the records or of the error the [try] part had produced. *)
Theorem cleanup_error_reaches_caller credentials urls self w e :
  o_ctl (close_browser (o_self (run_try_except credentials urls self w))
           (o_world (run_try_except credentials urls self w))) = Raise e →
  outcome (run credentials urls self w) = Throw e ∧
  count close_raised (trace (run credentials urls self w)) ≠ 0%nat.
Proof.
  intros Hraise. split.
  - destruct (run_try_except credentials urls self w) as [s1 w1 ev c] eqn:Htry.
    cbn [o_self o_world] in Hraise.
    pose proof (out_eta (close_browser s1 w1)) as Hout. rewrite Hraise in Hout.
    rewrite (run_cleanup_Raise _ _ _ _ _ _ _ _ _ _ _ _ Htry Hout). reflexivity.
  - rewrite run_trace, count_app. intros Hzero.
    assert (o_ctl (close_browser (o_self (run_try_except credentials urls self w))
                     (o_world (run_try_except credentials urls self w))) = Normal tt)
      as Hnormal by (apply close_browser_Normal_iff; lia).
    congruence.
Qed.

(** *** What no run does *)

Lemma extracted_urls_extract_events urls datas :
  length datas = length urls → extracted_urls (extract_events urls datas) = urls.
Proof.
  revert datas. induction urls as [|u us IH]; intros [|d ds]; simpl; try done.
  intros [= Hlen]. unfold extracted_urls in *. simpl. by rewrite (IH _ Hlen).
Qed.

Lemma init_browser_creates_at_most_one self w :
  (length (launched (o_events (init_browser self w))) ≤ 1)%nat ∧
  (length (opened_pages (o_events (init_browser self w))) ≤ 1)%nat.
Proof.
  unfold init_browser, launched, opened_pages. unfold_M. simpl.
  repeat case_call; simpl; lia.
Qed.

Lemma launched_app evs1 evs2 : launched (evs1 ++ evs2) = launched evs1 ++ launched evs2.
Proof. apply omap_app. Qed.

Lemma opened_pages_app evs1 evs2 :
  opened_pages (evs1 ++ evs2) = opened_pages evs1 ++ opened_pages evs2.
Proof. apply omap_app. Qed.

Lemma extracted_urls_app evs1 evs2 :
  extracted_urls (evs1 ++ evs2) = extracted_urls evs1 ++ extracted_urls evs2.
Proof. apply omap_app. Qed.

Lemma inert_close_browser self w : inert (o_events (close_browser self w)).
Proof.
  destruct (close_browser_events self w) as (evs & -> & Hall).
  unfold inert, launched, opened_pages, extracted_urls. simpl.
  rewrite !(omap_excluded _ close_event evs) by (excluded || done).
  rewrite count_cons. simpl.
  by rewrite (count_excluded is_authenticate close_event) by (excluded || done).
Qed.

Lemma inert_handler_events self e : inert (handler_events self e).
Proof. unfold handler_events. by destruct (exn_is_Exception e). Qed.

Lemma inert_app evs1 evs2 : inert evs1 → inert evs2 → inert (evs1 ++ evs2).
Proof.
  intros (H1 & H2 & H3 & H4) (H1' & H2' & H3' & H4'). unfold inert.
  rewrite launched_app, opened_pages_app, extracted_urls_app, count_app.
  by rewrite H1, H2, H3, H4, H1', H2', H3', H4'.
Qed.

Lemma extract_events_create_nothing urls datas :
  launched (extract_events urls datas) = [] ∧
  opened_pages (extract_events urls datas) = [] ∧
  count is_authenticate (extract_events urls datas) = 0%nat.
Proof.
  pose proof (extract_events_are_extracts urls datas) as Hall.
  unfold launched, opened_pages.
  rewrite !(omap_excluded _ is_extract _) by (excluded || done).
  by rewrite (count_excluded is_authenticate is_extract) by (excluded || done).
Qed.

Lemma authenticated_events self credentials w1 ev2 w2 :
  authenticated self credentials w1 ev2 w2 →
  launched ev2 = [] ∧ opened_pages ev2 = [] ∧ extracted_urls ev2 = [] ∧
  (count is_authenticate ev2 ≤ 1)%nat.
Proof. intros []; repeat split; try done; unfold count; simpl; lia. Qed.

(** Every run's trace: acquisition, then at most one [authenticate] and the
    rest of the [try] part, which creates nothing, then cleanup. *)
Lemma run_trace_shape credentials urls self w :
  ∃ rest,
    trace (run credentials urls self w) = o_events (init_browser self w) ++ rest ∧
    launched rest = [] ∧ opened_pages rest = [] ∧
    (count is_authenticate rest ≤ 1)%nat ∧
    ∃ more, requested_urls urls = extracted_urls rest ++ more.
Proof.
  rewrite run_trace, run_try_except_out. cbn [o_events o_self o_world o_ctl].
  pose proof (inert_close_browser (o_self (run_try credentials urls self w))
                (o_world (run_try credentials urls self w))) as Hclose.
  pose proof (run_try_behaviour credentials urls self w) as Hb.
  remember (run_try credentials urls self w) as o eqn:Ho in *.
  destruct Hb as [s0 w0 ev0 e Hi|c s0 w0 ev0 w2 e -> Hc Hi Ha
                 |c s0 w0 ev0 w2 -> Hc Hi Ha
                 |s0 w0 ev0 ev2 w2 datas w3 Hi Ha Hxs
                 |pre url post s0 w0 ev0 ev2 w2 datas w3 w4 e -> Hi Ha Hxs He];
    rewrite Hi; cbn [o_events o_self o_world o_ctl] in *; rewrite <- ?app_assoc;
    eexists; (split; [reflexivity|]).
  all: destruct Hclose as (H1 & H2 & H3 & H4);
    try destruct (inert_handler_events s0 e) as (Hh1 & Hh2 & Hh3 & Hh4);
    try destruct (authenticated_events _ _ _ _ _ Ha) as (Ha1 & Ha2 & Ha3 & Ha4).
  - refine (conj _ (conj _ (conj _ (ex_intro _ (requested_urls urls) _))));
      rewrite ?launched_app, ?opened_pages_app, ?extracted_urls_app, ?count_app;
      rewrite ?H1, ?H2, ?H3, ?H4, ?Hh1, ?Hh2, ?Hh3, ?Hh4; (done || lia).
  - refine (conj _ (conj _ (conj _ (ex_intro _ (requested_urls urls) _))));
      rewrite ?launched_app, ?opened_pages_app, ?extracted_urls_app, ?count_app;
      rewrite ?H1, ?H2, ?H3, ?H4, ?Hh1, ?Hh2, ?Hh3, ?Hh4; done.
  - change (?a :: ?b :: ?l) with ([a; b] ++ l).
    refine (conj _ (conj _ (conj _ (ex_intro _ (requested_urls urls) _))));
      rewrite ?launched_app, ?opened_pages_app, ?extracted_urls_app, ?count_app;
      rewrite ?H1, ?H2, ?H3, ?H4; done.
  - destruct (extract_events_create_nothing (requested_urls urls) datas) as (Hx1 & Hx2 & Hx3).
    refine (conj _ (conj _ (conj _ (ex_intro _ [] _))));
      rewrite ?app_nil_l;
      rewrite ?launched_app, ?opened_pages_app, ?extracted_urls_app, ?count_app;
      rewrite ?(extracted_urls_extract_events _ _ (extracts_length _ _ _ _ _ Hxs));
      rewrite ?H1, ?H2, ?H3, ?H4, ?Ha1, ?Ha2, ?Ha3, ?Hx1, ?Hx2, ?Hx3;
      rewrite ?app_nil_r; (done || lia).
  - destruct (extract_events_create_nothing pre datas) as (Hx1 & Hx2 & Hx3).
    refine (conj _ (conj _ (conj _ (ex_intro _ post _))));
      rewrite ?launched_app, ?opened_pages_app, ?extracted_urls_app, ?count_app;
      rewrite ?(extracted_urls_extract_events _ _ (extracts_length _ _ _ _ _ Hxs));
      rewrite ?H1, ?H2, ?H3, ?H4, ?Hh1, ?Hh2, ?Hh3, ?Hh4, ?Ha1, ?Ha2, ?Ha3, ?Hx1, ?Hx2, ?Hx3;
      rewrite ?app_nil_r; simpl; rewrite <- ?app_assoc; (done || lia).
Qed.

(** X11. No run calls [authenticate] more than once, launches more than one
    browser, or opens more than one page. *)
Theorem run_call_bounds credentials urls self w :
  (count is_authenticate (trace (run credentials urls self w)) ≤ 1)%nat ∧
  (length (launched (trace (run credentials urls self w))) ≤ 1)%nat ∧
  (length (opened_pages (trace (run credentials urls self w))) ≤ 1)%nat.
Proof.
  destruct (run_trace_shape credentials urls self w) as (rest & -> & Hl & Hp & Ha & _).
  destruct (init_browser_creates_at_most_one self w) as (Hil & Hip).
  pose proof (init_browser_events self w) as Hinit.
  unfold launched, opened_pages in *. rewrite count_app, !omap_app, !length_app, Hl, Hp.
  rewrite (count_excluded is_authenticate init_event) by (excluded || done).
  simpl. lia.
Qed.

(** X12. In every run, the URLs [extract_data] is called on are, in call
    order, an initial part of the requested list: no URL is skipped, taken
    out of order, or extracted twice for one request. *)
Theorem extraction_follows_the_url_list credentials urls self w :
  ∃ more,
    requested_urls urls = extracted_urls (trace (run credentials urls self w)) ++ more.
Proof.
  destruct (run_trace_shape credentials urls self w) as (rest & -> & _ & _ & _ & more & Hm).
  exists more. unfold extracted_urls in *. rewrite omap_app.
  by rewrite (omap_excluded _ init_event _) by (excluded || apply init_browser_events).
Qed.

Lemma init_browser_keeps_configuration self w :
  site_name (o_self (init_browser self w)) = site_name self ∧
  headless (o_self (init_browser self w)) = headless self ∧
  base_url (o_self (init_browser self w)) = base_url self.
Proof.
  unfold init_browser. unfold_M. simpl. repeat case_call; done.
Qed.

(** X13. [run] only ever assigns the [browser] and [page] fields: the site
    name, the headless flag and [base_url] (which [run] never fills from
    [get_base_url]) are the same after the run as before. *)
Theorem run_keeps_configuration credentials urls self w :
  site_name (final_self (run credentials urls self w)) = site_name self ∧
  headless (final_self (run credentials urls self w)) = headless self ∧
  base_url (final_self (run credentials urls self w)) = base_url self.
Proof. rewrite run_final_self. apply init_browser_keeps_configuration. Qed.

(** X14. A run that returns a value has cleaned up: exactly one browser and
    one page were created, and both closes returned normally. *)
Theorem returned_run_closed_its_browser credentials urls self w v :
  outcome (run credentials urls self w) = Done v →
  ∃ b p,
    launched (trace (run credentials urls self w)) = [b] ∧
    opened_pages (trace (run credentials urls self w)) = [p] ∧
    browser_closed b (trace (run credentials urls self w)) = true ∧
    page_closed p (trace (run credentials urls self w)) = true.
Proof.
  intros Hdone.
  pose proof (run_try_except_self credentials urls self w) as Hself.
  destruct (run_try_except credentials urls self w) as [s w' ev c] eqn:Htry.
  cbn [o_self] in Hself.
  destruct (close_browser s w') as [s2 w2 ev2 [[]|v'|e']] eqn:Hclose.
  2: { exfalso. eapply (close_browser_not_Return s w' v'). by rewrite Hclose. }
  2: { rewrite (run_cleanup_Raise _ _ _ _ _ _ _ _ _ _ _ _ Htry Hclose) in Hdone.
       discriminate. }
  rewrite (run_cleanup_Normal _ _ _ _ _ _ _ _ _ _ _ Htry Hclose) in Hdone.
  cbn [outcome snd] in Hdone.
  destruct (init_browser self w) as [s1 w1 ev1 [[]|v0|e]] eqn:Hinit.
  2: { exfalso. eapply (init_browser_not_Return self w v0). by rewrite Hinit. }
  2: { pose proof (run_try_except_Raise credentials urls _ _ _ _ _ _
                     (run_try_init_raises credentials urls _ _ _ _ _ _ Hinit)) as Hr.
       rewrite Htry in Hr. injection Hr as _ _ _ ->. discriminate. }
  cbn [o_self] in Hself. subst s.
  destruct (init_browser_Normal _ _ _ _ _ Hinit) as (b & p & Hs1 & Hev1).
  destruct (close_browser_closes_both s1 w' p b) as (w3 & Hcb);
    [by subst s1|by subst s1| |].
  { apply close_browser_Normal_iff. by rewrite Hclose. }
  destruct (run_trace_shape credentials urls self w) as (rest & Hshape & Hl & Hp & _).
  exists b, p. split; [|split].
  - rewrite Hshape, Hinit, launched_app, Hl. cbn [o_events]. by subst ev1.
  - rewrite Hshape, Hinit, opened_pages_app, Hp. cbn [o_events]. by subst ev1.
  - rewrite run_trace, Htry. cbn [o_events o_self o_world]. rewrite Hcb. cbn [o_events].
    unfold browser_closed, page_closed. rewrite !existsb_app. simpl.
    rewrite !Nat.eqb_refl, !orb_true_r. done.
Qed.

End Controller.



(** The scenario of two pages, without credentials. *)
Lemma run_returns_concatenation_witness :
  outcome (run None (Some ["https://site/a"; "https://site/b"]) Sim.scraper Sim.healthy) =
    Done [{["id" := 1]}; {["id" := 2]}; {["id" := 3]}].
Proof.
  etransitivity.
  - apply f_equal.
    eapply (run_returns_concatenation None _ Sim.scraper Sim.healthy).
    + reflexivity.
    + constructor.
    + repeat (econstructor; [reflexivity|]). constructor.
    + reflexivity.
  - reflexivity.
Defined.

Lemma run_closes_browser_exactly_once_witness :
  count is_close_call
    (trace (run (Some Sim.good_login) (Some ["https://site/a"; "https://site/missing"])
              Sim.scraper Sim.healthy)) = 1%nat.
Proof.
  eapply (run_closes_browser_exactly_once (Some Sim.good_login)
            (Some ["https://site/a"; "https://site/missing"]) Sim.scraper Sim.healthy).
  reflexivity.
Defined.

Lemma run_authentication_failure_witness :
  count is_extract
    (trace (run (Some Sim.bad_login) (Some ["https://site/a"; "https://site/b"])
              Sim.scraper Sim.healthy)) = 0%nat ∧
  outcome (run (Some Sim.bad_login) (Some ["https://site/a"; "https://site/b"])
             Sim.scraper Sim.healthy) = Done [].
Proof.
  destruct (run_authentication_failure (Some Sim.bad_login)
              (Some ["https://site/a"; "https://site/b"]) Sim.scraper Sim.healthy)
    as [Hnone Hempty].
  - vm_compute. discriminate.
  - split; [exact Hnone|]. apply Hempty. vm_compute. reflexivity.
Defined.

(** [authenticate] returns [False] and the page close fails: the caller
    gets the close error, not the empty list. *)
Lemma auth_failure_raises_when_close_raises :
  ¬ auth_failure_returns_empty (Some Sim.bad_login) (Some ["https://site/a"])
      Sim.scraper Sim.stuck_page.
Proof.
  unfold auth_failure_returns_empty. intros Hclaim.
  destruct Hclaim as [Hout _]; [vm_compute; discriminate|].
  vm_compute in Hout. discriminate.
Qed.

(** The second of three URLs raises. *)
Lemma run_extraction_error_witness :
  ∃ w5 b p,
    run None (Some (["https://site/a"] ++ "https://site/missing" :: ["https://site/b"]))
      Sim.scraper Sim.healthy =
      (Sim.ready_scraper, w5,
       [ECall m_init_browser; EStart (Done tt); ELaunch true (Done 0%nat);
        ENewPage 0%nat (Done 1%nat); ELog INFO "[site] completed browser initialization";
        EExtract "https://site/a" (Done [{["id" := 1]}]);
        EExtract "https://site/missing" (Throw (Exn true "no such page"));
        ELog ERROR "[site] execution failed: no such page";
        ECall m_close_browser; EPageClose p (Done tt); EBrowserClose b (Done tt);
        ELog INFO "[site] the browser has been closed"],
       Throw (Exn true "no such page")).
Proof.
  destruct (run_extraction_error None ["https://site/a"] "https://site/missing"
              ["https://site/b"] Sim.scraper Sim.healthy
              Sim.ready_scraper (Sim.World 2 false false false false false)
              [ECall m_init_browser; EStart (Done tt); ELaunch true (Done 0%nat);
               ENewPage 0%nat (Done 1%nat);
               ELog INFO "[site] completed browser initialization"]
              [] (Sim.World 2 false false false false false)
              [[{["id" := 1]}]] (Sim.World 2 false false false false false)
              (Sim.World 2 false false false false false) (Exn true "no such page"))
    as (_ & _ & b & p & _ & _ & Hrun).
  - reflexivity.
  - constructor.
  - repeat (econstructor; [reflexivity|]). constructor.
  - reflexivity.
  - destruct Hrun as (w5 & Heq); [vm_compute; reflexivity|].
    exists w5, b, p. exact Heq.
Defined.

(** The second of three URLs raises and then the page close fails: the
    caller gets the close error, not the extraction error. *)
Lemma close_error_hides_extraction_error :
  ¬ propagates_extraction_error None ["https://site/a"] "https://site/missing"
      ["https://site/b"] Sim.scraper Sim.stuck_page.
Proof.
  intros Hclaim.
  specialize (Hclaim Sim.ready_scraper (Sim.World 2 false false true false false)
                [ECall m_init_browser; EStart (Done tt); ELaunch true (Done 0%nat);
                 ENewPage 0%nat (Done 1%nat);
                 ELog INFO "[site] completed browser initialization"]
                [] (Sim.World 2 false false true false false)
                [[{["id" := 1]}]] (Sim.World 2 false false true false false)
                (Sim.World 2 false false true false false) (Exn true "no such page")).
  assert (outcome (run None (Some (["https://site/a"] ++ "https://site/missing" ::
                                    ["https://site/b"])) Sim.scraper Sim.stuck_page) =
            Throw (Exn true "Connection closed")) as Hreal by (vm_compute; reflexivity).
  rewrite Hclaim in Hreal.
  - discriminate.
  - reflexivity.
  - constructor.
  - repeat (econstructor; [reflexivity|]). constructor.
  - reflexivity.
Qed.

(** Both pages are extracted and then the browser close fails: the caller
    gets the close error, not the records. *)
Lemma concatenation_is_lost_when_close_raises :
  ¬ returns_concatenation None ["https://site/a"; "https://site/b"] Sim.scraper
      Sim.stuck_browser.
Proof.
  unfold returns_concatenation. intros Hclaim.
  specialize (Hclaim ltac:(vm_compute; reflexivity)).
  vm_compute in Hclaim. discriminate.
Qed.

(** The launch fails: no call of the strategy fails (none is made), and the
    caller gets the launch error. *)
Lemma concatenation_is_lost_when_launch_fails :
  ¬ returns_concatenation None ["https://site/a"; "https://site/b"] Sim.scraper
      Sim.no_launch.
Proof.
  unfold returns_concatenation. intros Hclaim.
  specialize (Hclaim ltac:(vm_compute; reflexivity)).
  vm_compute in Hclaim. discriminate.
Qed.

(** Without credentials and URLs, a failing launch: [run] raises and no
    browser is created. *)
Lemma bare_run_raises_when_launch_fails :
  ¬ bare_run_returns_empty (Record:=gmap string Z) Sim.scraper Sim.no_launch.
Proof.
  unfold bare_run_returns_empty. intros (_ & Hout & _).
  vm_compute in Hout. discriminate.
Qed.

(** Without credentials and URLs, a failing page close: [run] raises and the
    browser it started is not closed. *)
Lemma bare_run_raises_when_close_raises :
  ¬ bare_run_returns_empty (Record:=gmap string Z) Sim.scraper Sim.stuck_page.
Proof.
  unfold bare_run_returns_empty. intros (_ & _ & _ & _ & Hclosed).
  vm_compute in Hclosed. discriminate.
Qed.

(** The page close fails after a successful extraction: [close_browser]
    raises, and the caller gets that exception instead of the record. *)
Lemma cleanup_is_not_silent :
  ¬ cleanup_is_silent None (Some ["https://site/a"]) Sim.scraper Sim.stuck_page.
Proof.
  intros [Hnever _]. apply (Hnever (Exn true "Connection closed")).
  vm_compute. reflexivity.
Qed.

Lemma close_failure_masks_records :
  function_result
    (o_ctl (run_try_except None (Some ["https://site/a"]) Sim.scraper Sim.stuck_page)) =
    Done [{["id" := 1]}] ∧
  outcome (run None (Some ["https://site/a"]) Sim.scraper Sim.stuck_page) =
    Throw (Exn true "Connection closed").
Proof. split; vm_compute; reflexivity. Qed.

(** A failing browser close does the same. *)
Lemma a_failed_browser_close_raises_too :
  outcome (run None (Some ["https://site/a"]) Sim.scraper Sim.stuck_browser) =
    Throw (Exn true "Connection closed").
Proof. vm_compute. reflexivity. Qed.

Lemma cleanup_raises_only_when_close_raises_witness :
  outcome (run None (Some ["https://site/a"]) Sim.scraper Sim.healthy) =
    function_result
      (o_ctl (run_try_except None (Some ["https://site/a"]) Sim.scraper Sim.healthy)).
Proof.
  apply (cleanup_raises_only_when_close_raises None (Some ["https://site/a"])
           Sim.scraper Sim.healthy Sim.ready_scraper Sim.healthy).
  vm_compute. reflexivity.
Defined.

(** An empty mapping is passed, acquisition succeeds, and [authenticate] is
    not called. *)
Lemma empty_credentials_are_not_authenticated :
  ¬ authenticate_iff_supplied (Some ∅) (Some ["https://site/a"]) Sim.scraper Sim.healthy.
Proof. unfold authenticate_iff_supplied. vm_compute. discriminate. Qed.

Lemma authenticate_iff_nonempty_credentials_witness :
  count is_authenticate
    (trace (run (Some Sim.good_login) (Some ["https://site/a"]) Sim.scraper Sim.healthy)) =
    1%nat.
Proof.
  eapply (authenticate_iff_nonempty_credentials (Some Sim.good_login)
            (Some ["https://site/a"]) Sim.scraper Sim.healthy).
  reflexivity.
Defined.

Lemma navigate_to_fails_loudly_and_settles_witness :
  navigate_to (Record:=gmap string Z) "https://site/a" 3000 Sim.ready_scraper
    Sim.slow_network =
    Out Sim.ready_scraper Sim.slow_network
      [ECall m_navigate_to;
       EGoto 1%nat "https://site/a" "networkidle" 30000
         (Throw (Exn true "Timeout 30000ms exceeded."));
       ELog ERROR "[site] failed to navigate to: Timeout 30000ms exceeded."]
      (Raise (Exn true "Timeout 30000ms exceeded.")).
Proof.
  apply (navigate_to_fails_loudly_and_settles (Record:=gmap string Z)
           "https://site/a" 3000 Sim.ready_scraper Sim.slow_network 1%nat eq_refl).
  - reflexivity.
  - reflexivity.
Defined.

(** The page close fails: the browser that was started is never closed, and
    the controller still holds it. *)
Lemma a_failed_page_close_leaks_the_browser :
  ¬ one_browser_per_run None (Some ["https://site/a"]) Sim.scraper Sim.stuck_page.
Proof.
  unfold one_browser_per_run. intros (_ & _ & Hclosed & _).
  vm_compute in Hclosed. discriminate.
Qed.

(** The launch fails: no browser process and no page are created. *)
Lemma a_failed_launch_creates_nothing :
  ¬ one_browser_per_run None (Some ["https://site/a"]) Sim.scraper Sim.no_launch.
Proof.
  unfold one_browser_per_run. intros (Hone & _).
  vm_compute in Hone. discriminate.
Qed.

Lemma one_browser_one_page_per_run_witness :
  ∃ b p,
    launched (trace (run None (Some ["https://site/a"]) Sim.scraper Sim.healthy)) = [b] ∧
    opened_pages (trace (run None (Some ["https://site/a"]) Sim.scraper Sim.healthy)) = [p] ∧
    browser_closed b (trace (run None (Some ["https://site/a"]) Sim.scraper Sim.healthy))
      = true ∧
    page_closed p (trace (run None (Some ["https://site/a"]) Sim.scraper Sim.healthy))
      = true ∧
    browser (final_self (run None (Some ["https://site/a"]) Sim.scraper Sim.healthy))
      = Some b ∧
    page (final_self (run None (Some ["https://site/a"]) Sim.scraper Sim.healthy))
      = Some p.
Proof.
  eapply (one_browser_one_page_per_run None (Some ["https://site/a"]) Sim.scraper
            Sim.healthy).
  - reflexivity.
  - vm_compute. reflexivity.
Defined.

(** Opening the page fails on a new controller: cleanup closes the browser
    that was started, and no page. *)
Lemma a_failed_new_page_closes_only_the_browser :
  run None (Some ["https://site/a"]) Sim.scraper Sim.no_page =
    (set_browser_field (Some 0%nat) Sim.scraper, Sim.World 1 false true false false false,
     [ECall m_init_browser; EStart (Done tt); ELaunch true (Done 0%nat);
      ENewPage 0%nat (Throw (Exn true "Browser has been closed"));
      ELog ERROR "[site] execution failed: Browser has been closed";
      ECall m_close_browser; EBrowserClose 0%nat (Done tt);
      ELog INFO "[site] the browser has been closed"],
     Throw (Exn true "Browser has been closed")).
Proof. vm_compute. reflexivity. Qed.

(** The launch fails on a new controller: cleanup closes nothing. *)
Lemma close_browser_partial_state_witness :
  close_browser (Record:=gmap string Z) Sim.scraper Sim.no_launch =
    Out Sim.scraper Sim.no_launch
      [ECall m_close_browser; ELog INFO (closed_message Sim.scraper)] (Normal tt).
Proof.
  apply (close_browser_partial_state (Record:=gmap string Z) Sim.scraper Sim.no_launch).
  - reflexivity.
  - reflexivity.
Defined.

Lemma run_without_urls_witness :
  run (Record:=gmap string Z) None None Sim.scraper Sim.healthy =
    (Sim.ready_scraper, Sim.World 2 false false false false false,
     [ECall m_init_browser; EStart (Done tt); ELaunch true (Done 0%nat);
      ENewPage 0%nat (Done 1%nat);
      ELog INFO "[site] completed browser initialization"] ++
     [ECall m_close_browser; EPageClose 1%nat (Done tt); EBrowserClose 0%nat (Done tt);
      ELog INFO "[site] the browser has been closed"],
     Done []).
Proof.
  eapply (run_without_urls (Record:=gmap string Z) Sim.scraper Sim.healthy).
  - reflexivity.
  - reflexivity.
Defined.

(** The handles of a run stay in the controller's fields: a later run on the
    same controller whose launch fails closes them once more. *)
Lemma handles_persist_into_the_next_run :
  final_self (run (Record:=gmap string Z) None None Sim.scraper Sim.healthy) =
    Sim.ready_scraper ∧
  trace (run (Record:=gmap string Z) None None Sim.ready_scraper Sim.no_launch) =
    [ECall m_init_browser; EStart (Done tt);
     ELaunch true (Throw (Exn true "Executable doesn't exist"));
     ELog ERROR "[site] execution failed: Executable doesn't exist";
     ECall m_close_browser; EPageClose 1%nat (Done tt); EBrowserClose 0%nat (Done tt);
     ELog INFO "[site] the browser has been closed"].
Proof. split; vm_compute; reflexivity. Qed.

(** ** The further properties on concrete runs *)



Lemma non_Exception_is_not_logged_witness :
  trace (run (Strategy0:=Cancelled.site) None (Some ["https://site/a"]) Sim.scraper
           Sim.healthy) =
    [ECall m_init_browser; EStart (Done tt); ELaunch true (Done 0%nat);
     ENewPage 0%nat (Done 1%nat); ELog INFO "[site] completed browser initialization";
     EExtract "https://site/a" (Throw (Exn false "CancelledError"))] ++
    o_events (close_browser (Record:=gmap string Z) Sim.ready_scraper
                (Sim.World 2 false false false false false)).
Proof.
  eapply (non_Exception_is_not_logged (Strategy0:=Cancelled.site) None
            (Some ["https://site/a"]) Sim.scraper Sim.healthy).
  - reflexivity.
  - reflexivity.
Defined.

Lemma navigate_to_without_page_witness :
  ∃ e, exn_is_Exception e = true ∧
    navigate_to (Record:=gmap string Z) "https://site/a" 3000 Sim.scraper Sim.healthy =
      Out Sim.scraper Sim.healthy
        [ECall m_navigate_to;
         ELog ERROR ("[" +:+ site_name Sim.scraper +:+ "] failed to navigate to: " +:+
                     exn_str e)]
        (Raise e).
Proof.
  apply (navigate_to_without_page (Record:=gmap string Z) "https://site/a" 3000
           Sim.scraper Sim.healthy).
  reflexivity.
Defined.

Lemma navigate_to_settle_failure_witness :
  navigate_to (Record:=gmap string Z) (Playwright0:=Faulty.engine) "https://site/a" 3000
    Sim.ready_scraper Sim.healthy =
    Out Sim.ready_scraper Sim.healthy
      [ECall m_navigate_to; EGoto 1%nat "https://site/a" "networkidle" 30000 (Done tt);
       EWait 1%nat 3000 (Throw (Exn true "Target page has been closed"));
       ELog ERROR "[site] failed to navigate to: Target page has been closed"]
      (Raise (Exn true "Target page has been closed")).
Proof.
  apply (navigate_to_settle_failure (Record:=gmap string Z) (Playwright0:=Faulty.engine)
           "https://site/a" 3000 Sim.ready_scraper Sim.healthy 1%nat Sim.healthy
           Sim.healthy).
  - reflexivity.
  - reflexivity.
  - reflexivity.
  - reflexivity.
Defined.

Lemma page_close_failure_skips_browser_close_witness :
  count is_browser_close
    (o_events (close_browser (Record:=gmap string Z) Sim.ready_scraper Sim.stuck_page)) =
    0%nat.
Proof.
  eapply (page_close_failure_skips_browser_close (Record:=gmap string Z) Sim.ready_scraper
            Sim.stuck_page 1%nat).
  - reflexivity.
  - reflexivity.
Defined.

Lemma close_browser_again_closes_again_witness :
  ∃ r evs,
    o_events
      (close_browser (Record:=gmap string Z)
         (o_self (close_browser (Record:=gmap string Z) Sim.ready_scraper Sim.healthy))
         (o_world (close_browser (Record:=gmap string Z) Sim.ready_scraper Sim.healthy))) =
      ECall m_close_browser :: EPageClose 1%nat r :: evs.
Proof.
  apply (close_browser_again_closes_again (Record:=gmap string Z) Sim.ready_scraper
           Sim.healthy 1%nat).
  reflexivity.
Defined.

Lemma failed_launch_closes_previous_page_witness :
  ∃ ev_try r ev_close,
    trace (run None (Some ["https://site/a"]) Sim.ready_scraper Sim.no_launch) =
      ev_try ++ ECall m_close_browser :: EPageClose 1%nat r :: ev_close ∧
    count is_close_call ev_try = 0%nat.
Proof.
  apply (failed_launch_closes_previous_page None (Some ["https://site/a"])
           Sim.ready_scraper Sim.no_launch 1%nat).
  - reflexivity.
  - reflexivity.
Defined.

Lemma browser_without_page_is_closed_witness :
  outcome (run None (Some ["https://site/a"]) Sim.scraper Sim.no_page) =
    Throw (Exn true "Browser has been closed").
Proof.
  eapply (browser_without_page_is_closed None (Some ["https://site/a"]) Sim.scraper
            Sim.no_page _ 0%nat _ _ _ _ (Done tt)).
  - reflexivity.
  - reflexivity.
  - reflexivity.
  - reflexivity.
  - reflexivity.
Defined.

Lemma cleanup_error_reaches_caller_witness :
  outcome (run None (Some ["https://site/a"]) Sim.scraper Sim.stuck_page) =
    Throw (Exn true "Connection closed").
Proof.
  eapply (cleanup_error_reaches_caller None (Some ["https://site/a"]) Sim.scraper
            Sim.stuck_page).
  reflexivity.
Defined.

Lemma returned_run_closed_its_browser_witness :
  ∃ b p,
    launched (trace (run None (Some ["https://site/a"]) Sim.scraper Sim.healthy)) = [b] ∧
    opened_pages (trace (run None (Some ["https://site/a"]) Sim.scraper Sim.healthy)) = [p] ∧
    browser_closed b (trace (run None (Some ["https://site/a"]) Sim.scraper Sim.healthy))
      = true ∧
    page_closed p (trace (run None (Some ["https://site/a"]) Sim.scraper Sim.healthy))
      = true.
Proof.
  eapply (returned_run_closed_its_browser None (Some ["https://site/a"]) Sim.scraper
            Sim.healthy).
  reflexivity.
Defined.
